(** * OSUKA foresight front end: discovery run tracker and notebook column store

    A shallow embedding of
    - [src/frontend/src/lib/stores/notebook-columns-store.ts]
    - [src/frontend/src/lib/api/osuka.ts]
    - [src/frontend/src/app/(dashboard)/discovery/page.tsx]
    together with the properties of the run life cycle, the poll scheduler,
    the log card and the submitted request.

    Conventions.  A JavaScript string is a [string] whose characters are read
    as code units below 256.  A JavaScript number that the code only ever uses
    as an integer is a [Z]; the result of [Number.parseInt] is a [JSNumber].
    An optional field ([x?: T], [T | null]) is an [option].  The component
    is a state machine over events: a handler or the continuation of an
    [await] runs to its end and only calls setters, which write the state;
    React's re-rendering, which runs the clean-up and the body of the
    effect, is an event of its own and may come after further events. *)

From Stdlib Require Import ZArith Lia Bool String Ascii List.
From stdpp Require Import base list.
Import ListNotations.
Open Scope Z_scope.

(** ** JavaScript primitives used by the page *)

Module JS.

(** WhiteSpace and LineTerminator code units below 256: TAB, LF, VT, FF, CR,
    SP and NBSP.  [String.prototype.trim] and [parseInt] strip exactly these. *)
Definition isWhiteSpace (c : ascii) : bool :=
  let n := N_of_ascii c in
  (((9 <=? n) && (n <=? 13)) || (n =? 32) || (n =? 160))%N.

Fixpoint trimStart (s : string) : string :=
  match s with
  | String c s' => if isWhiteSpace c then trimStart s' else s
  | EmptyString => EmptyString
  end.

(** [trimEnd] drops the trailing run of white space: a white-space character
    is kept only when something that is kept follows it. *)
Fixpoint trimEnd (s : string) : string :=
  match s with
  | String c s' =>
      match trimEnd s' with
      | EmptyString => if isWhiteSpace c then EmptyString else String c EmptyString
      | r => String c r
      end
  | EmptyString => EmptyString
  end.

Definition trim (s : string) : string := trimEnd (trimStart s).

(** Truthiness of a string: every string but the empty one. *)
Definition truthy (s : string) : bool :=
  match s with EmptyString => false | _ => true end.

(** [a || b] on an optional string and a string. *)
Definition or_else (a : option string) (b : string) : string :=
  match a with
  | Some s => if truthy s then s else b
  | None => b
  end.

(** [s.split(sep)] for a one-character separator. *)
Fixpoint split_go (sep : ascii) (cur : string) (s : string) : list string :=
  match s with
  | EmptyString => [cur]
  | String c s' =>
      if Ascii.eqb c sep then cur :: split_go sep EmptyString s'
      else split_go sep (String.append cur (String c EmptyString)) s'
  end.

Definition split (sep : ascii) (s : string) : list string :=
  split_go sep EmptyString s.

(** The numbers [Number.parseInt] can return.  Both zeros are [Fin 0]: the
    page only compares the result with [0]. *)
Inductive JSNumber : Type :=
| NaN
| Infinity (negative : bool)
| Fin (z : Z).

Definition isFinite (n : JSNumber) : bool :=
  match n with Fin _ => true | _ => false end.

(** [n > 0] *)
Definition gt0 (n : JSNumber) : bool :=
  match n with
  | Fin z => 0 <? z
  | Infinity negative => negb negative
  | NaN => false
  end.

(** The Number value of a mathematical integer: exact below [2^53], rounded
    to a 53-bit significand (ties to even) above, infinite from [2^1024]. *)
Definition Number_of_Z (z : Z) : JSNumber :=
  let a := Z.abs z in
  if a <? 2 ^ 53 then Fin z
  else
    let e := Z.log2 a - 52 in
    let q := a / 2 ^ e in
    let r := a mod 2 ^ e in
    let half := 2 ^ (e - 1) in
    let q' := if (half <? r) || ((r =? half) && Z.odd q) then q + 1 else q in
    let v := q' * 2 ^ e in
    if 2 ^ 1024 <=? v then Infinity (z <? 0) else Fin (Z.sgn z * v).

Definition digitValue (c : ascii) : option Z :=
  let n := N_of_ascii c in
  if ((48 <=? n) && (n <=? 57))%N then Some (Z.of_N n - 48) else None.

(** The longest prefix of decimal digits, read as an integer; [None] when the
    prefix is empty. *)
Fixpoint digits (seen : bool) (acc : Z) (s : string) : option Z :=
  match s with
  | String c s' =>
      match digitValue c with
      | Some d => digits true (10 * acc + d) s'
      | None => if seen then Some acc else None
      end
  | EmptyString => if seen then Some acc else None
  end.

(** [Number.parseInt(input, 10)]: leading white space is skipped, one sign is
    accepted, the digits that follow are read, the rest is ignored. *)
Definition parseInt10 (input : string) : JSNumber :=
  let s := trimStart input in
  let '(sign, body) :=
    match s with
    | String "-" r => (-1, r)
    | String "+" r => (1, r)
    | _ => (1, s)
    end in
  match digits false 0 body with
  | None => NaN
  | Some mathInt => Number_of_Z (sign * mathInt)
  end.

(** Decimal numerals, to state what [parseInt10] reads: the string of the
    digits [ds] (each in 0..9) and the integer it denotes. *)
Definition digitChar (d : Z) : ascii := ascii_of_N (48 + Z.to_N d).

Fixpoint digit_string (ds : list Z) : string :=
  match ds with
  | [] => EmptyString
  | d :: r => String (digitChar d) (digit_string r)
  end.

Definition decimal_value (ds : list Z) : Z :=
  fold_left (fun a d => 10 * a + d) ds 0.

Definition is_digit (d : Z) : Prop := 0 <= d <= 9.

Definition starts_with_digit (s : string) : bool :=
  match s with
  | String c _ => match digitValue c with Some _ => true | None => false end
  | EmptyString => false
  end.

End JS.

(** ** The notebook columns store  (notebook-columns-store.ts) *)

Module NotebookColumns.

Record NotebookColumnsState : Type := mkColumns {
  sourcesCollapsed : bool;
  notesCollapsed : bool;
  marketCollapsed : bool
}.

(** The object literal handed to zustand's [set]: the fields it mentions. *)
Record Partial : Type := mkPartial {
  p_sourcesCollapsed : option bool;
  p_notesCollapsed : option bool;
  p_marketCollapsed : option bool
}.

(** zustand's [set]: the partial state is merged over the current one. *)
Definition merge (st : NotebookColumnsState) (p : Partial) : NotebookColumnsState :=
  {| sourcesCollapsed := default (sourcesCollapsed st) (p_sourcesCollapsed p);
     notesCollapsed := default (notesCollapsed st) (p_notesCollapsed p);
     marketCollapsed := default (marketCollapsed st) (p_marketCollapsed p) |}.

Definition set_fn (f : NotebookColumnsState -> Partial) (st : NotebookColumnsState)
  : NotebookColumnsState := merge st (f st).

Definition set_obj (p : Partial) (st : NotebookColumnsState) : NotebookColumnsState :=
  merge st p.

Definition initial : NotebookColumnsState := mkColumns false false false.

Definition toggleSources : NotebookColumnsState -> NotebookColumnsState :=
  set_fn (fun state =>
    {| p_sourcesCollapsed := Some (negb (sourcesCollapsed state));
       p_notesCollapsed := None; p_marketCollapsed := None |}).

Definition toggleNotes : NotebookColumnsState -> NotebookColumnsState :=
  set_fn (fun state =>
    {| p_sourcesCollapsed := None;
       p_notesCollapsed := Some (negb (notesCollapsed state));
       p_marketCollapsed := None |}).

Definition toggleMarket : NotebookColumnsState -> NotebookColumnsState :=
  set_fn (fun state =>
    {| p_sourcesCollapsed := None; p_notesCollapsed := None;
       p_marketCollapsed := Some (negb (marketCollapsed state)) |}).

Definition setSources (collapsed : bool) : NotebookColumnsState -> NotebookColumnsState :=
  set_obj {| p_sourcesCollapsed := Some collapsed;
             p_notesCollapsed := None; p_marketCollapsed := None |}.

Definition setNotes (collapsed : bool) : NotebookColumnsState -> NotebookColumnsState :=
  set_obj {| p_sourcesCollapsed := None;
             p_notesCollapsed := Some collapsed; p_marketCollapsed := None |}.

Definition setMarket (collapsed : bool) : NotebookColumnsState -> NotebookColumnsState :=
  set_obj {| p_sourcesCollapsed := None; p_notesCollapsed := None;
             p_marketCollapsed := Some collapsed |}.

(** The three flags of a state that an operation must leave alone. *)
Definition same_sources (a b : NotebookColumnsState) : Prop :=
  sourcesCollapsed a = sourcesCollapsed b.
Definition same_notes (a b : NotebookColumnsState) : Prop :=
  notesCollapsed a = notesCollapsed b.
Definition same_market (a b : NotebookColumnsState) : Prop :=
  marketCollapsed a = marketCollapsed b.

End NotebookColumns.

(** ** The transport client  (lib/api/osuka.ts) *)

Module Api.

Record Product : Type := mkProduct {
  brand_key : option string;
  url : string;
  title : option string;
  snippet : option string
}.

Record OsukaRunRequest : Type := mkRunRequest {
  category : string;
  market : option string;
  allow_external_brands : option bool;
  max_total : option JS.JSNumber;
  max_shopee_products : option Z;
  prefer_pdfs : option bool;
  preferred_brands : option (list string)
}.

Record OsukaRunResponse : Type := mkRunResponse {
  notebook_id : string;
  sources_added : Z;
  table_note_id : string;
  json_note_id : string;
  shopee_summary_note_id : option string;
  shopee_data_note_id : option string;
  shopee_count : option Z;
  chat_session_id : option string;
  products : list Product;
  result_logs : option (list string);
  markdown_table : option string
}.

Record OsukaRunStartResponse : Type := mkRunStart {
  start_run_id : string
}.

Record OsukaRunStatusResponse : Type := mkRunStatus {
  run_id : string;
  status : string;
  logs : list string;
  result : option OsukaRunResponse;
  error : option string
}.

(** The two operations of [osukaApi], as the requests they send:
    [POST /discovery/run] and [GET /discovery/run/${runId}]. *)
Inductive Call : Type :=
| osukaApi_run (data : OsukaRunRequest)
| osukaApi_status (runId : string).

Definition is_run (c : Call) : bool :=
  match c with osukaApi_run _ => true | osukaApi_status _ => false end.

Definition is_status (c : Call) : bool :=
  match c with osukaApi_run _ => false | osukaApi_status _ => true end.

End Api.

(** ** The discovery page  (app/(dashboard)/discovery/page.tsx) *)

Module Page.

(** The entries of the translation table [t] that the page logic reads. *)
Record Translations : Type := mkTranslations {
  common_error : string;
  common_required : string;
  common_success : string;
  osuka_logsStarting : string;
  osuka_logsRequestSent : string;
  osuka_logsResponseReceived : string
}.

Record RunState : Type := mkRunState {
  response : option Api.OsukaRunResponse;
  error : option string
}.

(** The component state: one field per [useState] hook. *)
Record PageState : Type := mkPage {
  category : string;
  market : string;
  allowExternal : bool;
  preferPdfs : bool;
  preferredBrands : string;
  maxTotal : string;
  loading : bool;
  runState : RunState;
  debugOpen : bool;
  localLogs : list string;
  runId : option string;
  runStatus : option Api.OsukaRunStatusResponse
}.

Definition initialPage : PageState :=
  {| category := ""; market := ""; allowExternal := true; preferPdfs := false;
     preferredBrands := ""; maxTotal := "10"; loading := false;
     runState := mkRunState None None; debugOpen := true; localLogs := [];
     runId := None; runStatus := None |}.

Definition setCategory (v : string) (p : PageState) : PageState :=
  mkPage v (market p) (allowExternal p) (preferPdfs p) (preferredBrands p)
    (maxTotal p) (loading p) (runState p) (debugOpen p) (localLogs p) (runId p)
    (runStatus p).

Definition setMarket (v : string) (p : PageState) : PageState :=
  mkPage (category p) v (allowExternal p) (preferPdfs p) (preferredBrands p)
    (maxTotal p) (loading p) (runState p) (debugOpen p) (localLogs p) (runId p)
    (runStatus p).

Definition setAllowExternal (v : bool) (p : PageState) : PageState :=
  mkPage (category p) (market p) v (preferPdfs p) (preferredBrands p)
    (maxTotal p) (loading p) (runState p) (debugOpen p) (localLogs p) (runId p)
    (runStatus p).

Definition setPreferPdfs (v : bool) (p : PageState) : PageState :=
  mkPage (category p) (market p) (allowExternal p) v (preferredBrands p)
    (maxTotal p) (loading p) (runState p) (debugOpen p) (localLogs p) (runId p)
    (runStatus p).

Definition setPreferredBrands (v : string) (p : PageState) : PageState :=
  mkPage (category p) (market p) (allowExternal p) (preferPdfs p) v
    (maxTotal p) (loading p) (runState p) (debugOpen p) (localLogs p) (runId p)
    (runStatus p).

Definition setMaxTotal (v : string) (p : PageState) : PageState :=
  mkPage (category p) (market p) (allowExternal p) (preferPdfs p)
    (preferredBrands p) v (loading p) (runState p) (debugOpen p) (localLogs p)
    (runId p) (runStatus p).

Definition setLoading (v : bool) (p : PageState) : PageState :=
  mkPage (category p) (market p) (allowExternal p) (preferPdfs p)
    (preferredBrands p) (maxTotal p) v (runState p) (debugOpen p) (localLogs p)
    (runId p) (runStatus p).

Definition setRunState (v : RunState) (p : PageState) : PageState :=
  mkPage (category p) (market p) (allowExternal p) (preferPdfs p)
    (preferredBrands p) (maxTotal p) (loading p) v (debugOpen p) (localLogs p)
    (runId p) (runStatus p).

Definition setDebugOpen (v : bool) (p : PageState) : PageState :=
  mkPage (category p) (market p) (allowExternal p) (preferPdfs p)
    (preferredBrands p) (maxTotal p) (loading p) (runState p) v (localLogs p)
    (runId p) (runStatus p).

(** [setLocalLogs] is always given the new list or a function of the old. *)
Definition setLocalLogs (f : list string -> list string) (p : PageState) : PageState :=
  mkPage (category p) (market p) (allowExternal p) (preferPdfs p)
    (preferredBrands p) (maxTotal p) (loading p) (runState p) (debugOpen p)
    (f (localLogs p)) (runId p) (runStatus p).

Definition setRunId (v : option string) (p : PageState) : PageState :=
  mkPage (category p) (market p) (allowExternal p) (preferPdfs p)
    (preferredBrands p) (maxTotal p) (loading p) (runState p) (debugOpen p)
    (localLogs p) v (runStatus p).

Definition setRunStatus (v : option Api.OsukaRunStatusResponse) (p : PageState)
  : PageState :=
  mkPage (category p) (market p) (allowExternal p) (preferPdfs p)
    (preferredBrands p) (maxTotal p) (loading p) (runState p) (debugOpen p)
    (localLogs p) (runId p) v.

(** *** The environment of the component *)

(** A timer made by [setInterval]: its period and the time it next fires. *)
Record Timer : Type := mkTimer {
  delay : Z;
  due : Z
}.

(** One run of the effect body with a truthy [runId]: the closure holding the
    captured [runId], the [cancelled] flag and the interval handle
    ([None] once [clearInterval] ran). *)
Record Session : Type := mkSession {
  s_runId : string;
  cancelled : bool;
  interval : option Timer
}.

(** A promise that has not settled: the [await] of [handleRun], or the
    [await] of [poll] in the session with the given index. *)
Inductive Pending : Type :=
| PendingRun
| PendingStatus (sid : nat).

Definition pending_eqb (a b : Pending) : bool :=
  match a, b with
  | PendingRun, PendingRun => true
  | PendingStatus i, PendingStatus j => Nat.eqb i j
  | _, _ => false
  end.

Inductive Toast : Type :=
| toast_error (m : string)
| toast_success (m : string).

(** What a rejected promise carries: an [Error] with its message, or any
    other thrown value. *)
Inductive Thrown : Type :=
| ErrorObject (message : string)
| OtherValue.

(** The component in its environment.  [effectDep] is the [runId] the effect
    last ran with and [effect] the session that run created, which the next
    clean-up will stop.  [calls] logs every request handed to the transport
    client with the time it was issued; [now] is the clock in milliseconds. *)
Record World : Type := mkWorld {
  page : PageState;
  mounted : bool;
  effectDep : option string;
  effect : option nat;
  sessions : list Session;
  inflight : list Pending;
  calls : list (Z * Api.Call);
  toasts : list Toast;
  now : Z
}.

Definition with_page (f : PageState -> PageState) (w : World) : World :=
  mkWorld (f (page w)) (mounted w) (effectDep w) (effect w) (sessions w)
    (inflight w) (calls w) (toasts w) (now w).

Definition with_mounted (v : bool) (w : World) : World :=
  mkWorld (page w) v (effectDep w) (effect w) (sessions w)
    (inflight w) (calls w) (toasts w) (now w).

Definition with_effect (d : option string) (e : option nat) (w : World) : World :=
  mkWorld (page w) (mounted w) d e (sessions w)
    (inflight w) (calls w) (toasts w) (now w).

Definition with_sessions (f : list Session -> list Session) (w : World) : World :=
  mkWorld (page w) (mounted w) (effectDep w) (effect w) (f (sessions w))
    (inflight w) (calls w) (toasts w) (now w).

Definition with_inflight (v : list Pending) (w : World) : World :=
  mkWorld (page w) (mounted w) (effectDep w) (effect w) (sessions w)
    v (calls w) (toasts w) (now w).

Definition with_now (v : Z) (w : World) : World :=
  mkWorld (page w) (mounted w) (effectDep w) (effect w) (sessions w)
    (inflight w) (calls w) (toasts w) v.

Definition toast (x : Toast) (w : World) : World :=
  mkWorld (page w) (mounted w) (effectDep w) (effect w) (sessions w)
    (inflight w) (calls w) (toasts w ++ [x]) (now w).

(** Handing a request to the transport client: it is logged, and the promise
    it returns is pending. *)
Definition request (c : Api.Call) (k : Pending) (w : World) : World :=
  mkWorld (page w) (mounted w) (effectDep w) (effect w) (sessions w)
    (inflight w ++ [k]) (calls w ++ [(now w, c)]) (toasts w) (now w).

(** A state setter called on an unmounted component changes nothing. *)
Definition setState (f : PageState -> PageState) (w : World) : World :=
  if mounted w then with_page f w else w.

(** Settling one pending promise: [None] when no such promise is pending. *)
Fixpoint settle (k : Pending) (l : list Pending) : option (list Pending) :=
  match l with
  | [] => None
  | x :: l' =>
      if pending_eqb k x then Some l'
      else match settle k l' with
           | Some r => Some (x :: r)
           | None => None
           end
  end.

Definition opt_string_eqb (a b : option string) : bool :=
  match a, b with
  | None, None => true
  | Some x, Some y => String.eqb x y
  | _, _ => false
  end.

Section Logic.

Variable t : Translations.

(** *** The polling effect  (page.tsx, lines 38-77) *)

(** The clean-up the effect returns: [cancelled = true; clearInterval(interval)]. *)
Definition stop (s : Session) : Session := mkSession (s_runId s) true None.

Definition cleanup (sid : nat) (w : World) : World :=
  with_sessions (alter stop sid) w.

(** [poll] up to its [await]: the status request for the captured [runId]. *)
Definition poll (sid : nat) (w : World) : World :=
  match sessions w !! sid with
  | Some s => request (Api.osukaApi_status (s_runId s)) (PendingStatus sid) w
  | None => w
  end.

(** The effect body: nothing for a falsy [runId]; otherwise a new session
    whose interval has period 2000 and whose [poll] is called at once. *)
Definition effect_body (w : World) : World :=
  let dep := runId (page w) in
  match dep with
  | Some rid =>
      if JS.truthy rid then
        let sid := length (sessions w) in
        let s := mkSession rid false (Some (mkTimer 2000 (now w + 2000))) in
        poll sid (with_effect dep (Some sid) (with_sessions (fun l => l ++ [s]) w))
      else with_effect dep None w
  | None => with_effect dep None w
  end.

(** React re-renders the component and runs its effect: when [runId] differs
    from the one the effect last ran with, the previous clean-up runs and
    then the effect body.  A handler only calls setters; React does this
    later, after the handler has returned - it is an event of its own,
    [Render], and answers and timers that come before it still find the old
    session running. *)
Definition render (w : World) : World :=
  if negb (mounted w) || opt_string_eqb (runId (page w)) (effectDep w) then w
  else effect_body (match effect w with
                    | Some sid => cleanup sid w
                    | None => w
                    end).

(** The [cancelled] flag a continuation of [poll] reads. *)
Definition is_cancelled (sid : nat) (w : World) : bool :=
  match sessions w !! sid with
  | Some s => cancelled s
  | None => true
  end.

(** Lines 50-60: what [poll] does with a status it received. *)
Definition apply_status (status : Api.OsukaRunStatusResponse) (p : PageState)
  : PageState :=
  let p := setRunStatus (Some status) p in
  if String.eqb (Api.status status) "completed" && bool_decide (is_Some (Api.result status)) then
    setRunId None (setRunState (mkRunState (Api.result status) None) p)
  else if String.eqb (Api.status status) "failed" then
    setRunId None
      (setRunState
         (mkRunState None (Some (JS.or_else (Api.error status) (common_error t)))) p)
  else p.

(** [poll] after its [await] resolved (lines 47-60). *)
Definition poll_then (sid : nat) (status : Api.OsukaRunStatusResponse) (w : World)
  : World :=
  if is_cancelled sid w then w
  else setState (apply_status status) w.

(** [err instanceof Error ? err.message : t.common.error] *)
Definition message_of (err : Thrown) : string :=
  match err with
  | ErrorObject m => m
  | OtherValue => common_error t
  end.

(** [poll] after its [await] rejected (lines 61-67). *)
Definition poll_catch (sid : nat) (err : Thrown) (w : World) : World :=
  if negb (is_cancelled sid w) then
    setState (fun p =>
      setRunId None (setRunState (mkRunState None (Some (message_of err))) p)) w
  else w.

(** *** Submission  (page.tsx, lines 79-117) *)

(** [max_total] of the request (line 103). *)
Definition max_total_of (maxTotal : string) : JS.JSNumber :=
  let maxTotalNumber := JS.parseInt10 maxTotal in
  if JS.isFinite maxTotalNumber && JS.gt0 maxTotalNumber then maxTotalNumber
  else JS.Fin 10.

(** The argument of [osukaApi.osukaApi_run] (lines 90-106). *)
Definition build_request (p : PageState) : Api.OsukaRunRequest :=
  let preferredList :=
    List.filter JS.truthy (List.map JS.trim (JS.split "," (preferredBrands p))) in
  {| Api.category := JS.trim (category p);
     Api.market := if JS.truthy (JS.trim (market p)) then Some (JS.trim (market p)) else None;
     Api.allow_external_brands := Some (allowExternal p);
     Api.prefer_pdfs := Some (preferPdfs p);
     Api.max_total := Some (max_total_of (maxTotal p));
     Api.max_shopee_products := Some 10;
     Api.preferred_brands :=
       match preferredList with [] => None | _ => Some preferredList end |}.

(** [handleRun] up to its [await]. *)
Definition handleRun (w : World) : World :=
  let p := page w in
  if negb (JS.truthy (JS.trim (category p))) then
    toast (toast_error (common_required t)) w
  else
    let w := setState (setLoading true) w in
    let w := setState (setRunState (mkRunState None None)) w in
    let w := setState (setLocalLogs (fun _ => [osuka_logsStarting t])) w in
    let w := setState (setRunStatus None) w in
    let w := setState (setLocalLogs (fun prev => prev ++ [osuka_logsRequestSent t])) w in
    request (Api.osukaApi_run (build_request p)) PendingRun w.

(** [handleRun] after [osukaApi.osukaApi_run] resolved (lines 107-109, 115). *)
Definition handleRun_then (response : Api.OsukaRunStartResponse) (w : World) : World :=
  let w := setState (setRunId (Some (Api.start_run_id response))) w in
  let w := setState (setLocalLogs (fun prev => prev ++ [osuka_logsResponseReceived t])) w in
  let w := toast (toast_success (common_success t)) w in
  setState (setLoading false) w.

(** [handleRun] after [osukaApi.osukaApi_run] rejected (lines 110-115). *)
Definition handleRun_catch (err : Thrown) (w : World) : World :=
  let message := message_of err in
  let w := setState (setRunState (mkRunState None (Some message))) w in
  let w := toast (toast_error message) w in
  setState (setLoading false) w.

(** *** Events *)

(** The [onChange] handlers of the form and of the collapsible. *)
Inductive Input : Type :=
| Category (v : string)
| Market (v : string)
| AllowExternal (v : bool)
| PreferPdfs (v : bool)
| PreferredBrands (v : string)
| MaxTotal (v : string)
| DebugOpen (v : bool).

Definition edit (i : Input) : PageState -> PageState :=
  match i with
  | Category v => setCategory v
  | Market v => setMarket v
  | AllowExternal v => setAllowExternal v
  | PreferPdfs v => setPreferPdfs v
  | PreferredBrands v => setPreferredBrands v
  | MaxTotal v => setMaxTotal v
  | DebugOpen v => setDebugOpen v
  end.

(** Everything that can happen to the mounted component. *)
Inductive Event : Type :=
| Edit (i : Input)
| Click
| RunResolved (response : Api.OsukaRunStartResponse)
| RunRejected (err : Thrown)
| Tick (sid : nat)
| StatusResolved (sid : nat) (status : Api.OsukaRunStatusResponse)
| StatusRejected (sid : nat) (err : Thrown)
| Elapse (dt : Z)
| Render
| Unmount.

(** The interval of session [sid] fires: the clock is at its due time, the
    timer is re-armed one period later and [poll] is called. *)
Definition tick (sid : nat) (w : World) : World :=
  match sessions w !! sid with
  | Some s =>
      match interval s with
      | Some tm =>
          let s' := mkSession (s_runId s) (cancelled s)
                      (Some (mkTimer (delay tm) (due tm + delay tm))) in
          poll sid (with_sessions (fun l => <[sid := s']> l)
                      (with_now (Z.max (now w) (due tm)) w))
      | None => w
      end
  | None => w
  end.

(** Time may pass as long as no armed timer is overdue. *)
Definition may_elapse (dt : Z) (w : World) : bool :=
  (0 <=? dt) &&
  forallb (fun s => match interval s with
                    | Some tm => now w + dt <=? due tm
                    | None => true
                    end) (sessions w).

(** One event.  The button is [disabled] while [loading]; an event that
    cannot happen (no such pending promise, a cleared interval, an unmounted
    component) leaves the world as it is.  The setters of a handler write the
    state at once; the effect follows the state at the next [Render]. *)
Definition step (w : World) (e : Event) : World :=
  match e with
  | Edit i => setState (edit i) w
  | Click => if mounted w && negb (loading (page w)) then handleRun w else w
  | RunResolved response =>
      match settle PendingRun (inflight w) with
      | Some l => handleRun_then response (with_inflight l w)
      | None => w
      end
  | RunRejected err =>
      match settle PendingRun (inflight w) with
      | Some l => handleRun_catch err (with_inflight l w)
      | None => w
      end
  | Tick sid => tick sid w
  | StatusResolved sid status =>
      match settle (PendingStatus sid) (inflight w) with
      | Some l => poll_then sid status (with_inflight l w)
      | None => w
      end
  | StatusRejected sid err =>
      match settle (PendingStatus sid) (inflight w) with
      | Some l => poll_catch sid err (with_inflight l w)
      | None => w
      end
  | Elapse dt => if may_elapse dt w then with_now (now w + dt) w else w
  | Render => render w
  | Unmount =>
      if mounted w then
        with_mounted false
          (with_effect (effectDep w) None
             (match effect w with
              | Some sid => cleanup sid w
              | None => w
              end))
      else w
  end.

Definition run (w : World) (es : list Event) : World := fold_left step es w.

End Logic.

(** The component right after it mounted at time [t0]: the effect ran with
    [runId = null] and returned at once. *)
Definition mount (t0 : Z) : World :=
  {| page := initialPage; mounted := true; effectDep := None; effect := None;
     sessions := []; inflight := []; calls := []; toasts := []; now := t0 |}.

(** *** What the page shows *)

(** The life-cycle status of the run, read off the component state: a result
    or an error is shown, else a run identifier is being polled, else a
    submission is awaited, else nothing happened yet. *)
Inductive Status : Type := idle | submitting | polling | completed | failed.

Definition status_of (p : PageState) : Status :=
  match response (runState p), error (runState p) with
  | Some _, _ => completed
  | None, Some _ => failed
  | None, None =>
      match runId p with
      | Some rid => if JS.truthy rid then polling else if loading p then submitting else idle
      | None => if loading p then submitting else idle
      end
  end.

(** idle < submitting < polling < {completed, failed} *)
Definition rank (s : Status) : nat :=
  match s with
  | idle => 0
  | submitting => 1
  | polling => 2
  | completed => 3
  | failed => 3
  end%nat.

Definition is_terminal (s : Status) : bool :=
  match s with completed | failed => true | _ => false end.

(** The keys of the log lines: [`local-${idx}`] and [`remote-${idx}`]. *)
Inductive LogKey : Type :=
| local (idx : nat)
| remote (idx : nat).

(** [runStatus?.logs] *)
Definition remoteLogs (p : PageState) : list string :=
  match runStatus p with
  | Some st => Api.logs st
  | None => []
  end.

(** The condition of line 264. *)
Definition logs_shown (p : PageState) : bool :=
  (0 <? length (localLogs p))%nat
  || negb (length (remoteLogs p) =? 0)%nat
  || match response (runState p) with
     | Some r => match Api.result_logs r with
                 | Some l => negb (length l =? 0)%nat
                 | None => false
                 end
     | None => false
     end.

(** The log card (lines 264-292): its lines with their keys, when shown. *)
Definition logCard (p : PageState) : option (list (LogKey * string)) :=
  if logs_shown p then
    Some (imap (fun idx line => (local idx, line)) (localLogs p)
          ++ imap (fun idx line => (remote idx, line)) (remoteLogs p))
  else None.

(** The log lines on screen, top to bottom. *)
Definition displayedLogs (p : PageState) : list string :=
  match logCard p with
  | Some lines => List.map snd lines
  | None => []
  end.

(** *** Vocabulary of the properties *)

(** The worlds the component can be in: any events after mounting. *)
Definition reachable (t : Translations) (w : World) : Prop :=
  exists t0 es, w = run t (mount t0) es.

(** The events of the timers, the clock and the status requests, and the
    re-rendering; the user, the submission and the unmounting take no part
    in them. *)
Definition poll_event (e : Event) : Prop :=
  match e with
  | Tick _ | StatusResolved _ _ | StatusRejected _ _ | Elapse _ | Render => True
  | _ => False
  end.

(** A status on which [poll] ends the run: completed with a result, or failed. *)
Definition terminal (status : Api.OsukaRunStatusResponse) : bool :=
  (String.eqb (Api.status status) "completed" && bool_decide (is_Some (Api.result status)))
  || String.eqb (Api.status status) "failed".

(** The events of one running session that do not end it: its ticks, the
    passing of time, the answers that are not terminal, and re-rendering. *)
Definition session_event (sid : nat) (e : Event) : Prop :=
  match e with
  | Tick s => s = sid
  | Elapse _ => True
  | StatusResolved s status => s = sid /\ terminal status = false
  | Render => True
  | _ => False
  end.

(** The number of ticks among some events. *)
Fixpoint ticks (es : list Event) : nat :=
  match es with
  | [] => 0
  | Tick _ :: es' => S (ticks es')
  | _ :: es' => ticks es'
  end.

(** Every event but the settling of a submission. *)
Definition not_run_settled (e : Event) : Prop :=
  match e with
  | RunResolved _ | RunRejected _ => False
  | _ => True
  end.

(** Every session is cancelled and its interval cleared. *)
Definition stopped (w : World) : Prop :=
  forall sid s, sessions w !! sid = Some s -> cancelled s = true /\ interval s = None.

(** Two worlds with the same effect, sessions and mount flag. *)
Definition same_control (w w' : World) : Prop :=
  mounted w' = mounted w /\ effectDep w' = effectDep w /\ effect w' = effect w
  /\ sessions w' = sessions w.

(** The invariant of the effect.  Only the session of the current effect is
    running: it is not cancelled, its interval is armed, and it polls the
    [runId] the effect ran with. *)
Definition wf (w : World) : Prop :=
  (forall sid s, sessions w !! sid = Some s -> effect w <> Some sid ->
     cancelled s = true /\ interval s = None)
  /\ (forall sid, effect w = Some sid ->
        mounted w = true /\
        exists s, sessions w !! sid = Some s /\ cancelled s = false /\
                  is_Some (interval s) /\ effectDep w = Some (s_runId s) /\
                  JS.truthy (s_runId s) = true).

(** The effect is in step with the state: no re-render would run it. *)
Definition settled (w : World) : Prop :=
  mounted w = true -> effectDep w = runId (page w).

(** The worlds an event sequence goes through, and their statuses. *)
Fixpoint worlds (t : Translations) (w : World) (es : list Event) : list World :=
  w :: match es with
       | [] => []
       | e :: es' => worlds t (step t w e) es'
       end.

Definition statuses (t : Translations) (w : World) (es : list Event) : list Status :=
  List.map (fun x => status_of (page x)) (worlds t w es).

Fixpoint nondecreasing (l : list nat) : Prop :=
  match l with
  | a :: (b :: _) as r => (a <= b)%nat /\ nondecreasing r
  | _ => True
  end.

Definition status_eqb (a b : Status) : bool :=
  match a, b with
  | idle, idle | submitting, submitting | polling, polling
  | completed, completed | failed, failed => true
  | _, _ => false
  end.

(** The number of steps that enter a terminal status: from a status that is
    not terminal, or from the other terminal status. *)
Fixpoint terminal_transitions (l : list Status) : nat :=
  match l with
  | a :: (b :: _) as r =>
      ((if negb (status_eqb a b) && is_terminal b then 1 else 0)
       + terminal_transitions r)%nat
  | _ => 0%nat
  end.

(** The submissions among the logged requests. *)
Definition count_runs (l : list (Z * Api.Call)) : nat :=
  length (List.filter (fun c => Api.is_run (snd c)) l).

(** The times at which the logged status requests were issued. *)
Definition status_times (l : list (Z * Api.Call)) : list Z :=
  List.map fst (List.filter (fun c => Api.is_status (snd c)) l).

End Page.

(** ** Sample data

    A translation table and a few worlds and answers to run the page on. *)

Module Sample.
Import Page.

Definition en : Translations :=
  {| common_error := "An error occurred";
     common_required := "This field is required";
     common_success := "Success";
     osuka_logsStarting := "Starting run";
     osuka_logsRequestSent := "Request sent";
     osuka_logsResponseReceived := "Response received" |}.

(** The form filled in, nothing submitted yet. *)
Definition form_filled : World :=
  run en (mount 0) [Edit (Category "shoes")].

(** Submitted, the backend answered with the run identifier "r1" and React
    re-rendered: session 0 polls it and its first status request is in
    flight. *)
Definition polling_r1 : World :=
  run en form_filled [Click; RunResolved (Api.mkRunStart "r1"); Render].

(** ... and the interval fired once: two status requests are in flight. *)
Definition polling_r1_ticked : World :=
  run en polling_r1 [Elapse 2000; Tick 0].

(** The component went away while the first status request was in flight. *)
Definition left_r1 : World :=
  run en polling_r1 [Unmount].

(** The state React runs the effect body on once [runId] became "r1". *)
Definition got_r1 : World :=
  with_page (setRunId (Some "r1"%string)) form_filled.

Definition a_result : Api.OsukaRunResponse :=
  {| Api.notebook_id := "nb1"; Api.sources_added := 3;
     Api.table_note_id := "n1"; Api.json_note_id := "n2";
     Api.shopee_summary_note_id := None; Api.shopee_data_note_id := None;
     Api.shopee_count := None; Api.chat_session_id := None;
     Api.products := [Api.mkProduct None "https://example.com/p" None None];
     Api.result_logs := None; Api.markdown_table := None |}.

Definition st_running : Api.OsukaRunStatusResponse :=
  Api.mkRunStatus "r1" "running" ["queued"%string] None None.

Definition st_paused : Api.OsukaRunStatusResponse :=
  Api.mkRunStatus "r1" "paused" ["queued"%string] None None.

Definition st_completed : Api.OsukaRunStatusResponse :=
  Api.mkRunStatus "r1" "completed" ["queued"%string; "done"%string]
    (Some a_result) None.

Definition st_completed_bare : Api.OsukaRunStatusResponse :=
  Api.mkRunStatus "r1" "completed" ["queued"%string; "done"%string] None None.

Definition st_failed : Api.OsukaRunStatusResponse :=
  Api.mkRunStatus "r1" "failed" [] None (Some "no products found"%string).

End Sample.

(** ** More vocabulary for the discovery page *)

Module PageMore.
Import Page.

(** Every character of the string is white space (so is the empty string). *)
Fixpoint all_white (s : string) : bool :=
  match s with
  | EmptyString => true
  | String c s' => JS.isWhiteSpace c && all_white s'
  end.

Definition first_char (s : string) : option ascii :=
  match s with
  | EmptyString => None
  | String c _ => Some c
  end.



Fixpoint has_char (x : ascii) (s : string) : bool :=
  match s with
  | EmptyString => false
  | String c s' => Ascii.eqb c x || has_char x s'
  end.

(** The error card (lines 201-210): the message it shows, when it is
    rendered - [runState.error &&] hides it for an empty message. *)
Definition error_card (p : PageState) : option string :=
  match error (runState p) with
  | Some e => if JS.truthy e then Some e else None
  | None => None
  end.

(** The submissions among the pending promises. *)
Definition pending_runs (l : list Pending) : nat :=
  length (List.filter (fun k => pending_eqb PendingRun k) l).

End PageMore.

(** ** The add-YouTube-source dialog  (components/sources/AddYoutubeSourceDialog.tsx) *)

Module Youtube.

(** *** The regular expression of [isYoutubeUrl] *)

(** The constructs the pattern uses: a character, [^], sequence,
    alternative and [( )?]. *)
Inductive Regex : Type :=
| Chr (c : ascii)
| Bol
| Seq (r1 r2 : Regex)
| Alt (r1 r2 : Regex)
| Opt (r : Regex).

(** Canonicalisation under the [i] flag (without [u]): the upper-case
    letter, for the letters below 256 whose upper case is below 256. *)
Definition canon (c : ascii) : ascii :=
  let n := N_of_ascii c in
  if (((97 <=? n) && (n <=? 122))
      || ((224 <=? n) && (n <=? 254) && negb (n =? 247)))%N
  then ascii_of_N (n - 32) else c.

(** Backtracking matching with a continuation: [at_start] tells whether the
    position is the start of the input (for [^]). *)
Fixpoint matches (r : Regex) (at_start : bool) (s : string)
    (k : bool -> string -> bool) : bool :=
  match r with
  | Chr c =>
      match s with
      | String c' s' => if Ascii.eqb (canon c) (canon c') then k false s' else false
      | EmptyString => false
      end
  | Bol => if at_start then k at_start s else false
  | Seq r1 r2 => matches r1 at_start s (fun b s' => matches r2 b s' k)
  | Alt r1 r2 => matches r1 at_start s k || matches r2 at_start s k
  | Opt r1 => matches r1 at_start s k || k at_start s
  end.

(** [RegExp.prototype.test]: a match starting at some position. *)
Fixpoint test_from (r : Regex) (at_start : bool) (s : string) : bool :=
  matches r at_start s (fun _ _ => true)
  || match s with
     | String _ s' => test_from r false s'
     | EmptyString => false
     end.

Definition test (r : Regex) (s : string) : bool := test_from r true s.

(** The characters [c], then those of [s], one after the other. *)
Fixpoint lit (c : ascii) (s : string) : Regex :=
  match s with
  | EmptyString => Chr c
  | String c' s' => Seq (Chr c) (lit c' s')
  end.

(** [/(^https?:\/\/)?(www\.)?(youtube\.com|youtu\.be)\//i] *)
Definition youtube_pattern : Regex :=
  Seq (Opt (Seq Bol (Seq (lit "h" "ttp") (Seq (Opt (Chr "s")) (lit ":" "//")))))
    (Seq (Opt (lit "w" "ww."))
       (Seq (Alt (lit "y" "outube.com") (lit "y" "outu.be")) (Chr "/"))).

Definition isYoutubeUrl (url : string) : bool := test youtube_pattern url.

(** *** Substrings ignoring case, to say what the pattern accepts *)

Fixpoint prefix_ci (p s : string) : bool :=
  match p, s with
  | EmptyString, _ => true
  | String a p', String b s' => Ascii.eqb (canon a) (canon b) && prefix_ci p' s'
  | String _ _, EmptyString => false
  end.

(** What follows the prefix [p] in [s], when [s] starts with [p]. *)
Fixpoint strip_ci (p s : string) : option string :=
  match p, s with
  | EmptyString, _ => Some s
  | String a p', String b s' =>
      if Ascii.eqb (canon a) (canon b) then strip_ci p' s' else None
  | String _ _, EmptyString => None
  end.

Fixpoint contains_ci (p s : string) : bool :=
  prefix_ci p s
  || match s with
     | String _ s' => contains_ci p s'
     | EmptyString => false
     end.

(** The host part of the pattern with its slash, at the start of [s]. *)
Definition host_here (s : string) : bool :=
  prefix_ci "youtube.com/" s || prefix_ci "youtu.be/" s.

(** *** The dialog *)

(** The dialog with what it did to its surroundings: the value and the error
    of the form field [url], the [submitting] flag, the number of
    [mutateAsync] promises that [onSubmit] still awaits, and the logs of the
    calls of [createYoutube.mutateAsync] (url, notebook), [toast.error] and
    [onOpenChange]. *)
Record Dialog : Type := mkDialog {
  url_value : string;
  url_error : bool;
  submitting : bool;
  awaiting : nat;
  mutations : list (string * string);
  toasts : list string;
  openChanges : list bool
}.

(** The dialog as it is first rendered: [defaultValues: { url: '' }]. *)
Definition initial : Dialog := mkDialog EmptyString false false 0 [] [] [].

Section Dialog.

(** The [notebookId] prop, the check of [z.string().url()] and the message
    [t.sources.invalidYoutubeUrl]. *)
Variable notebookId : string.
Variable zod_url : string -> bool.
Variable invalidYoutubeUrl : string.

(** [onSubmit] up to its [await] (lines 51-58). *)
Definition onSubmit (url : string) (d : Dialog) : Dialog :=
  if negb (isYoutubeUrl url) then
    mkDialog (url_value d) (url_error d) (submitting d) (awaiting d) (mutations d)
      (toasts d ++ [invalidYoutubeUrl]) (openChanges d)
  else
    mkDialog (url_value d) (url_error d) true (S (awaiting d))
      (mutations d ++ [(url, notebookId)]) (toasts d) (openChanges d).

(** [onSubmit] after [mutateAsync] resolved: [reset()], [onOpenChange(false)]
    and the [finally] (lines 59-60, 64). *)
Definition onSubmit_then (d : Dialog) : Dialog :=
  mkDialog EmptyString false false (pred (awaiting d)) (mutations d) (toasts d)
    (openChanges d ++ [false]).

(** [onSubmit] after [mutateAsync] rejected: the empty [catch] and the
    [finally] (lines 61-64). *)
Definition onSubmit_catch (d : Dialog) : Dialog :=
  mkDialog (url_value d) (url_error d) false (pred (awaiting d)) (mutations d)
    (toasts d) (openChanges d).

(** [handleSubmit(onSubmit)]: the resolver validates the field; [onSubmit]
    runs on valid data, the error is set otherwise. *)
Definition handleSubmit (d : Dialog) : Dialog :=
  if zod_url (url_value d) then
    onSubmit (url_value d)
      (mkDialog (url_value d) false (submitting d) (awaiting d) (mutations d)
         (toasts d) (openChanges d))
  else
    mkDialog (url_value d) true (submitting d) (awaiting d) (mutations d)
      (toasts d) (openChanges d).

(** What can happen to the dialog: typing, submitting the form (with the
    [isPending] of the mutation hook at that time), the settling of an
    awaited [mutateAsync], the Cancel button, and the [Dialog] primitive
    asking for a change of its open state - [false] on Escape, on a click
    outside and on its close button - which line 69 hands to
    [onOpenChange]. *)
Inductive DialogEvent : Type :=
| Type_ (v : string)
| Submit (isPending : bool)
| Resolved
| Rejected
| Cancel
| Dismiss (v : bool).

(** The submit button is [disabled] while [submitting || isPending]. *)
Definition dialog_step (d : Dialog) (e : DialogEvent) : Dialog :=
  match e with
  | Type_ v =>
      mkDialog v (url_error d) (submitting d) (awaiting d) (mutations d) (toasts d)
        (openChanges d)
  | Submit isPending => if submitting d || isPending then d else handleSubmit d
  | Resolved => match awaiting d with O => d | S _ => onSubmit_then d end
  | Rejected => match awaiting d with O => d | S _ => onSubmit_catch d end
  | Cancel =>
      mkDialog (url_value d) (url_error d) (submitting d) (awaiting d) (mutations d)
        (toasts d) (openChanges d ++ [false])
  | Dismiss v =>
      mkDialog (url_value d) (url_error d) (submitting d) (awaiting d) (mutations d)
        (toasts d) (openChanges d ++ [v])
  end.

Definition dialog_run (d : Dialog) (es : list DialogEvent) : Dialog :=
  fold_left dialog_step es d.

(** What an event passes to [onOpenChange], if it calls it: the component
    itself closes the dialog after a creation and on Cancel, the [Dialog]
    primitive passes on what it asks for. *)
Definition open_change (e : DialogEvent) (d : Dialog) : option bool :=
  match e with
  | Cancel => Some false
  | Resolved => match awaiting d with O => None | S _ => Some false end
  | Dismiss v => Some v
  | _ => None
  end.

End Dialog.

End Youtube.

(** ** The market summary column
       (app/(dashboard)/notebooks/components/MarketSummaryColumn.tsx) *)

Module Market.

(** The fields of [NoteResponse] the column reads; [title] and [content]
    may be missing. *)
Record NoteResponse : Type := mkNote {
  id : string;
  title : option string;
  content : option string;
  updated : string
}.

(** [x || ''] *)
Definition or_empty (x : option string) : string :=
  match x with
  | Some s => s
  | None => EmptyString
  end.

(** [toLowerCase], on the letters below 256. *)
Definition lower (c : ascii) : ascii :=
  let n := N_of_ascii c in
  if (((65 <=? n) && (n <=? 90))
      || ((192 <=? n) && (n <=? 222) && negb (n =? 215)))%N
  then ascii_of_N (n + 32) else c.

Fixpoint toLowerCase (s : string) : string :=
  match s with
  | EmptyString => EmptyString
  | String c s' => String (lower c) (toLowerCase s')
  end.

Fixpoint startsWith (p s : string) : bool :=
  match p, s with
  | EmptyString, _ => true
  | String a p', String b s' => Ascii.eqb a b && startsWith p' s'
  | String _ _, EmptyString => false
  end.

(** [s.includes(p)] *)
Fixpoint includes (p s : string) : bool :=
  startsWith p s
  || match s with
     | String _ s' => includes p s'
     | EmptyString => false
     end.

(** The filter of line 21: a note that looks like a market summary. *)
Definition is_candidate (note : NoteResponse) : bool :=
  let title := toLowerCase (or_empty (title note)) in
  let content := toLowerCase (or_empty (content note)) in
  includes "shopee summary" title || includes "market size gmv" content.

(** The filter of line 27: [(note.content || '').trim().length > 0]. *)
Definition has_content (note : NoteResponse) : bool :=
  JS.truthy (JS.trim (or_empty (content note))).

Section Pick.

(** [new Date(s).getTime()]: the time in milliseconds, [None] for [NaN]
    when the string is no date. *)
Variable getTime : string -> option Z.

(** The comparator of line 29; a [NaN] difference counts as [+0]. *)
Definition compare (a b : NoteResponse) : Z :=
  match getTime (updated b), getTime (updated a) with
  | Some tb, Some ta => tb - ta
  | _, _ => 0
  end.

(** The time of a note whose date parses. *)
Definition time_of (n : NoteResponse) : Z := default 0 (getTime (updated n)).

(** [Array.prototype.sort] is stable, and with a consistent comparator its
    result is determined; it is computed here by insertion: an element goes
    before the first one it does not have to follow.  With dates that do not
    parse the comparator is not consistent and the order is the engine's. *)
Fixpoint insert (x : NoteResponse) (l : list NoteResponse) : list NoteResponse :=
  match l with
  | [] => [x]
  | y :: r => if compare x y <=? 0 then x :: y :: r else y :: insert x r
  end.

Fixpoint sort (l : list NoteResponse) : list NoteResponse :=
  match l with
  | [] => []
  | x :: r => insert x (sort r)
  end.

(** The notes line 29 sorts: the candidates with content, or all the
    candidates when none has any. *)
Definition pool (notes : list NoteResponse) : list NoteResponse :=
  let candidates := List.filter is_candidate notes in
  let withContent := List.filter has_content candidates in
  match withContent with
  | [] => candidates
  | _ => withContent
  end.

Definition pickMarketSummary (notes : option (list NoteResponse))
  : option NoteResponse :=
  match notes with
  | None => None
  | Some [] => None
  | Some l =>
      match List.filter is_candidate l with
      | [] => None
      | _ => head (sort (pool l))
      end
  end.

End Pick.

(** *** The content of the note (lines 81-106) *)

Definition LF : ascii := ascii_of_N 10.
Definition CR : ascii := ascii_of_N 13.

(** [raw.split(/\r?\n/)] *)
Fixpoint split_lines_go (cur s : string) : list string :=
  match s with
  | EmptyString => [cur]
  | String c s' =>
      if Ascii.eqb c LF then cur :: split_lines_go EmptyString s'
      else if Ascii.eqb c CR then
        match s' with
        | String c2 s'' =>
            if Ascii.eqb c2 LF then cur :: split_lines_go EmptyString s''
            else split_lines_go (String.append cur (String c EmptyString)) s'
        | EmptyString => split_lines_go (String.append cur (String c EmptyString)) s'
        end
      else split_lines_go (String.append cur (String c EmptyString)) s'
  end.

Definition split_lines (raw : string) : list string :=
  split_lines_go EmptyString raw.

(** [lines.findIndex(line => line.trim().length > 0)], with the line found
    and the lines after it. *)
Fixpoint first_non_empty (lines : list string) : option (string * list string) :=
  match lines with
  | [] => None
  | line :: after =>
      if JS.truthy (JS.trim line) then Some (line, after)
      else first_non_empty after
  end.

(** [lines.join('\n')] *)
Definition join_lines (lines : list string) : string :=
  String.concat (String LF EmptyString) lines.

(** What is rendered of the content: the bold first line, and the [pre]. *)
Record ContentView : Type := mkContentView {
  heading : option string;
  body : option string
}.

Definition content_view (raw : string) : ContentView :=
  let lines := split_lines raw in
  let '(firstLine, rest) :=
    match first_non_empty lines with
    | Some (line, after) => (line, join_lines after)
    | None => (EmptyString, EmptyString)
    end in
  {| heading := if JS.truthy firstLine then Some firstLine else None;
     body := if JS.truthy rest then Some rest
             else if JS.truthy raw && negb (JS.truthy firstLine) then Some raw
             else None |}.

End Market.

(** ** More sample data *)

Module SampleMore.
Import Page Sample.

(** A category of white space only. *)
Definition form_blank : World :=
  run en (mount 0) [Edit (Category "   ")].

(** The form submitted, the answer not yet there. *)
Definition submitted : World :=
  run en form_filled [Click].

(** After the run "r1" completed, a second submission was answered with
    "r2"; session 1 polled it, and its first status request has just failed:
    React has not re-rendered yet. *)
Definition second_run_failed : World :=
  run en polling_r1
    [StatusResolved 0 st_completed; Render; Click; RunResolved (Api.mkRunStart "r2");
     Render; StatusRejected 1 (ErrorObject "Network Error")].

(** Dates as the backend writes them, for three days. *)
Definition sample_getTime (s : string) : option Z :=
  if String.eqb s "2024-05-01T00:00:00Z" then Some 1714521600000
  else if String.eqb s "2024-05-02T00:00:00Z" then Some 1714608000000
  else if String.eqb s "2024-05-03T00:00:00Z" then Some 1714694400000
  else None.

Definition note_old : Market.NoteResponse :=
  Market.mkNote "n1" (Some "Shopee Summary"%string) (Some "Market size GMV: 1"%string)
    "2024-05-01T00:00:00Z".

Definition note_new : Market.NoteResponse :=
  Market.mkNote "n2" (Some "Shopee summary (2)"%string) (Some "Market size GMV: 2"%string)
    "2024-05-02T00:00:00Z".

Definition note_empty : Market.NoteResponse :=
  Market.mkNote "n3" (Some "SHOPEE SUMMARY"%string) (Some "  "%string)
    "2024-05-03T00:00:00Z".

Definition note_other : Market.NoteResponse :=
  Market.mkNote "n4" (Some "Reading list"%string) None "2024-05-03T00:00:00Z".

Definition some_notes : list Market.NoteResponse :=
  [note_other; note_old; note_empty; note_new].

(** A content with a blank first line, a title and two lines. *)
Definition sample_content : string :=
  String Market.LF
    (String.append "Market size"
       (String Market.LF (String.append "GMV 1" (String Market.LF "GMV 2")))).

(** The dialog with a URL typed and submitted, the creation in flight. *)
Definition dialog_submitted : Youtube.Dialog :=
  Youtube.dialog_run "nb1" (fun _ => true) "Not a YouTube URL" Youtube.initial
    [Youtube.Type_ "https://youtu.be/abc"; Youtube.Submit false].

End SampleMore.
(** * Properties *)

(** ** The notebook columns store *)

Module ColumnsProps.
Import NotebookColumns.

Lemma toggleMarket_spec st :
  toggleMarket st =
    mkColumns (sourcesCollapsed st) (notesCollapsed st) (negb (marketCollapsed st)).
Proof. reflexivity. Qed.

Lemma toggleSources_spec st :
  toggleSources st =
    mkColumns (negb (sourcesCollapsed st)) (notesCollapsed st) (marketCollapsed st).
Proof. reflexivity. Qed.

Lemma toggleNotes_spec st :
  toggleNotes st =
    mkColumns (sourcesCollapsed st) (negb (notesCollapsed st)) (marketCollapsed st).
Proof. reflexivity. Qed.

(** C10.  Every operation of the notebook-columns store changes its own flag
    only: the market operations leave [sourcesCollapsed] and [notesCollapsed]
    as they were, and likewise for the sources and the notes operations; a
    setter stores its argument, a toggle negates its flag, and a toggle
    applied twice gives the state back. *)
Theorem columns_ops_frame_and_involution (st : NotebookColumnsState) (b : bool) :
  (marketCollapsed (toggleMarket st) = negb (marketCollapsed st)
   /\ same_sources (toggleMarket st) st /\ same_notes (toggleMarket st) st)
  /\ (marketCollapsed (setMarket b st) = b
      /\ same_sources (setMarket b st) st /\ same_notes (setMarket b st) st)
  /\ (sourcesCollapsed (toggleSources st) = negb (sourcesCollapsed st)
      /\ same_notes (toggleSources st) st /\ same_market (toggleSources st) st)
  /\ (sourcesCollapsed (setSources b st) = b
      /\ same_notes (setSources b st) st /\ same_market (setSources b st) st)
  /\ (notesCollapsed (toggleNotes st) = negb (notesCollapsed st)
      /\ same_sources (toggleNotes st) st /\ same_market (toggleNotes st) st)
  /\ (notesCollapsed (setNotes b st) = b
      /\ same_sources (setNotes b st) st /\ same_market (setNotes b st) st)
  /\ toggleMarket (toggleMarket st) = st
  /\ toggleSources (toggleSources st) = st
  /\ toggleNotes (toggleNotes st) = st.
Proof.
  repeat split.
  - rewrite toggleMarket_spec. destruct st as [s n m]; simpl. by rewrite negb_involutive.
  - rewrite toggleSources_spec. destruct st as [s n m]; simpl. by rewrite negb_involutive.
  - rewrite toggleNotes_spec. destruct st as [s n m]; simpl. by rewrite negb_involutive.
Qed.

End ColumnsProps.

(** ** Reading the max-total field *)

Module JSProps.
Import JS.

Lemma digitValue_digitChar d : is_digit d -> digitValue (digitChar d) = Some d.
Proof.
  intros [H0 H9].
  assert (d = 0 \/ d = 1 \/ d = 2 \/ d = 3 \/ d = 4 \/ d = 5 \/ d = 6 \/ d = 7
          \/ d = 8 \/ d = 9) as Hd by lia.
  repeat destruct Hd as [->|Hd]; try subst d; reflexivity.
Qed.

Lemma isWhiteSpace_digitChar d : is_digit d -> isWhiteSpace (digitChar d) = false.
Proof.
  intros [H0 H9].
  assert (d = 0 \/ d = 1 \/ d = 2 \/ d = 3 \/ d = 4 \/ d = 5 \/ d = 6 \/ d = 7
          \/ d = 8 \/ d = 9) as Hd by lia.
  repeat destruct Hd as [->|Hd]; try subst d; reflexivity.
Qed.

Lemma digitChar_not_sign d :
  is_digit d -> digitChar d <> "-"%char /\ digitChar d <> "+"%char.
Proof.
  intros [H0 H9].
  assert (d = 0 \/ d = 1 \/ d = 2 \/ d = 3 \/ d = 4 \/ d = 5 \/ d = 6 \/ d = 7
          \/ d = 8 \/ d = 9) as Hd by lia.
  repeat destruct Hd as [->|Hd]; try subst d; by split.
Qed.

Lemma digits_rest seen acc rest :
  starts_with_digit rest = false ->
  digits seen acc rest = if seen then Some acc else None.
Proof.
  destruct rest as [|c rest]; [done|]. simpl.
  by destruct (digitValue c).
Qed.

Lemma digits_digit_string ds : forall seen acc rest,
  Forall is_digit ds -> starts_with_digit rest = false ->
  digits seen acc (String.append (digit_string ds) rest)
  = match ds with
    | [] => if seen then Some acc else None
    | _ => Some (fold_left (fun a d => 10 * a + d) ds acc)
    end.
Proof.
  induction ds as [|d ds IH]; intros seen acc rest Hds Hrest.
  - simpl. by apply digits_rest.
  - apply Forall_cons in Hds as [Hd Hds]. simpl.
    rewrite (digitValue_digitChar d Hd), (IH true _ rest Hds Hrest).
    by destruct ds.
Qed.

(** A numeral, whatever follows it that is not a digit, is read as the
    integer it denotes. *)
Lemma parseInt10_decimal ds rest :
  ds <> [] -> Forall is_digit ds -> starts_with_digit rest = false ->
  parseInt10 (String.append (digit_string ds) rest) = Number_of_Z (decimal_value ds).
Proof.
  intros Hne Hds Hrest. destruct ds as [|d ds]; [done|].
  pose proof (digits_digit_string (d :: ds) false 0 rest Hds Hrest) as Hdig.
  apply Forall_cons in Hds as [Hd Hds].
  unfold parseInt10. simpl String.append in *. simpl trimStart.
  rewrite (isWhiteSpace_digitChar d Hd).
  destruct (digitChar_not_sign d Hd) as [Hm Hp].
  assert (Hbody : (let '(sign, body) :=
             match String (digitChar d) (String.append (digit_string ds) rest) with
             | String "-"%char r => (-1, r)
             | String "+"%char r => (1, r)
             | _ => (1, String (digitChar d) (String.append (digit_string ds) rest))
             end in
           match digits false 0 body with
           | Some mathInt => Number_of_Z (sign * mathInt)
           | None => NaN
           end)
          = match digits false 0
                    (String (digitChar d) (String.append (digit_string ds) rest)) with
            | Some mathInt => Number_of_Z (1 * mathInt)
            | None => NaN
            end).
  { destruct (digitChar d) as [[] [] [] [] [] [] [] []]; try done. }
  rewrite Hbody, Hdig. unfold decimal_value.
  by rewrite Z.mul_1_l.
Qed.

End JSProps.

(** ** The discovery page *)

Module PageProps.
Import Page.

Lemma pending_eqb_eq a b : pending_eqb a b = true <-> a = b.
Proof.
  destruct a as [|i], b as [|j]; simpl; split; try done.
  - intros H. apply Nat.eqb_eq in H. by subst.
  - intros [= ->]. apply Nat.eqb_refl.
Qed.

Lemma settle_elem k l : k ∈ l -> exists l', settle k l = Some l'.
Proof.
  induction l as [|x l IH]; intros Hin.
  - by apply elem_of_nil in Hin.
  - simpl. destruct (pending_eqb k x) eqn:E; [eauto|].
    apply elem_of_cons in Hin as [->|Hin].
    + assert (pending_eqb x x = true) by by apply pending_eqb_eq.
      congruence.
    + destruct (IH Hin) as [l' ->]. eauto.
Qed.

Lemma opt_string_eqb_eq a b : opt_string_eqb a b = true <-> a = b.
Proof.
  destruct a as [x|], b as [y|]; simpl; split; try done.
  - intros H. apply String.eqb_eq in H. by subst.
  - intros [= ->]. apply String.eqb_refl.
Qed.

Lemma opt_string_eqb_neq a b : opt_string_eqb a b = false <-> a <> b.
Proof.
  split.
  - intros H ->. assert (opt_string_eqb b b = true) by by apply opt_string_eqb_eq.
    congruence.
  - intros H. destruct (opt_string_eqb a b) eqn:E; [|done].
    by apply opt_string_eqb_eq in E.
Qed.

Section Effect.

Variable t : Translations.

(** The effect machinery never writes the component state. *)

Lemma page_poll sid w : page (poll sid w) = page w.
Proof. unfold poll. by destruct (sessions w !! sid). Qed.

Lemma page_cleanup_effect w :
  page (match effect w with Some sid => cleanup sid w | None => w end) = page w.
Proof. by destruct (effect w). Qed.

Lemma page_effect_body w : page (effect_body w) = page w.
Proof.
  unfold effect_body. destruct (runId (page w)) as [rid|]; [|done].
  destruct (JS.truthy rid); [|done]. by rewrite page_poll.
Qed.

Lemma page_render w : page (render w) = page w.
Proof.
  unfold render. destruct (negb (mounted w) || _); [done|].
  by rewrite page_effect_body, page_cleanup_effect.
Qed.

Lemma page_setState f w :
  page (setState f w) = if mounted w then f (page w) else page w.
Proof. unfold setState. by destruct (mounted w). Qed.

Lemma setState_mounted f w : mounted w = true -> setState f w = with_page f w.
Proof. unfold setState. by intros ->. Qed.

Lemma setState_unmounted f w : mounted w = false -> setState f w = w.
Proof. unfold setState. by intros ->. Qed.

Lemma mounted_setState f w : mounted (setState f w) = mounted w.
Proof. unfold setState. by destruct (mounted w) eqn:E. Qed.

Ltac solve_mounted :=
  repeat (rewrite ?mounted_setState; simpl); done.

Lemma page_tick sid w : page (tick sid w) = page w.
Proof.
  unfold tick. destruct (sessions w !! sid) as [s|]; [|done].
  destruct (interval s); [|done]. by rewrite page_poll.
Qed.

(** *** The invariant of the effect *)

Lemma same_control_refl w : same_control w w.
Proof. by repeat split. Qed.

Lemma same_control_trans w1 w2 w3 :
  same_control w1 w2 -> same_control w2 w3 -> same_control w1 w3.
Proof.
  intros (a1 & a2 & a3 & a4) (b1 & b2 & b3 & b4).
  repeat split; congruence.
Qed.

Lemma same_control_setState f w : same_control w (setState f w).
Proof. unfold setState. destruct (mounted w) eqn:E; by repeat split. Qed.

Lemma same_control_toast x w : same_control w (toast x w).
Proof. by repeat split. Qed.

Lemma same_control_request c k w : same_control w (request c k w).
Proof. by repeat split. Qed.

Lemma same_control_inflight l w : same_control w (with_inflight l w).
Proof. by repeat split. Qed.

Lemma same_control_now z w : same_control w (with_now z w).
Proof. by repeat split. Qed.

Lemma same_control_poll sid w : same_control w (poll sid w).
Proof. unfold poll. destruct (sessions w !! sid); by repeat split. Qed.

Ltac control :=
  repeat (eapply same_control_trans;
          [|first [apply same_control_toast|apply same_control_setState
                  |apply same_control_request|apply same_control_inflight]]);
  apply same_control_refl.

(** The handlers only call setters, toasts and the transport client: none
    of them touches the sessions or the effect. *)

Lemma same_control_handleRun w : same_control w (handleRun t w).
Proof.
  unfold handleRun. destruct (negb (JS.truthy (JS.trim (category (page w))))); control.
Qed.

Lemma same_control_handleRun_then r w : same_control w (handleRun_then t r w).
Proof. unfold handleRun_then. control. Qed.

Lemma same_control_handleRun_catch err w : same_control w (handleRun_catch t err w).
Proof. unfold handleRun_catch. control. Qed.

Lemma same_control_poll_then sid st w : same_control w (poll_then t sid st w).
Proof. unfold poll_then. destruct (is_cancelled sid w); control. Qed.

Lemma same_control_poll_catch sid err w : same_control w (poll_catch t sid err w).
Proof. unfold poll_catch. destruct (negb (is_cancelled sid w)); control. Qed.

Lemma wf_same_control w w' : same_control w w' -> wf w -> wf w'.
Proof.
  intros (Hm & Hd & He & Hs) [H1 H2]. unfold wf.
  rewrite Hm, Hd, He, Hs. by split.
Qed.

Lemma stopped_same_sessions w w' : sessions w' = sessions w -> stopped w -> stopped w'.
Proof. unfold stopped. by intros ->. Qed.

Lemma cleanup_effect_stopped w :
  wf w -> stopped (match effect w with Some sid => cleanup sid w | None => w end).
Proof.
  intros [H1 H2]. destruct (effect w) as [sid0|] eqn:E.
  - intros sid s. unfold cleanup; simpl.
    destruct (decide (sid = sid0)) as [->|Hne].
    + rewrite list_lookup_alter_eq. destruct (sessions w !! sid0); [|done].
      by intros [= <-].
    + rewrite list_lookup_alter_ne by done. intros Hs.
      apply (H1 sid s Hs). congruence.
  - intros sid s Hs. by apply (H1 sid s Hs).
Qed.

Lemma effect_body_wf w : stopped w -> mounted w = true -> wf (effect_body w).
Proof.
  intros Hst Hm. unfold effect_body.
  assert (Hnone : forall d, wf (with_effect d None w)).
  { intros d. split; simpl.
    - intros sid s Hs _. by apply (Hst sid s).
    - done. }
  destruct (runId (page w)) as [rid|] eqn:Hrid; [|by apply Hnone].
  destruct (JS.truthy rid) eqn:Htr; [|by apply Hnone].
  set (s0 := mkSession rid false (Some (mkTimer 2000 (now w + 2000)))).
  set (w1 := with_effect (Some rid) (Some (length (sessions w)))
               (with_sessions (fun l => l ++ [s0]) w)).
  assert (Hw1 : wf w1).
  { split; simpl.
    - intros sid s Hs Hne.
      destruct (decide (sid < length (sessions w))%nat) as [Hlt|Hge].
      + rewrite lookup_app_l in Hs by done. by apply (Hst sid s).
      + destruct (decide (sid = length (sessions w))) as [->|Hne']; [done|].
        rewrite lookup_ge_None_2 in Hs; [done|].
        rewrite length_app; simpl. lia.
    - intros sid [= <-]. split; [done|]. exists s0.
      rewrite lookup_app_r by done. rewrite Nat.sub_diag. simpl.
      repeat split; eauto. }
  eapply wf_same_control; [apply same_control_poll|done].
Qed.

Lemma effectDep_effect_body w : effectDep (effect_body w) = runId (page w).
Proof.
  unfold effect_body. destruct (runId (page w)) as [rid|]; [|done].
  destruct (JS.truthy rid); [|done].
  by destruct (same_control_poll (length (sessions w))
                 (with_effect (Some rid) (Some (length (sessions w)))
                    (with_sessions
                       (fun l => l ++ [mkSession rid false
                                         (Some (mkTimer 2000 (now w + 2000)))]) w)))
    as (_ & -> & _).
Qed.

Lemma mounted_effect_body w : mounted (effect_body w) = mounted w.
Proof.
  unfold effect_body. destruct (runId (page w)) as [rid|]; [|done].
  destruct (JS.truthy rid); [|done].
  by destruct (same_control_poll (length (sessions w))
                 (with_effect (Some rid) (Some (length (sessions w)))
                    (with_sessions
                       (fun l => l ++ [mkSession rid false
                                         (Some (mkTimer 2000 (now w + 2000)))]) w)))
    as (-> & _).
Qed.

Lemma mounted_render w : mounted (render w) = mounted w.
Proof.
  unfold render. destruct (negb (mounted w) || _); [done|].
  rewrite mounted_effect_body. by destruct (effect w).
Qed.

Lemma render_wf w : wf w -> wf (render w).
Proof.
  intros Hw. unfold render. destruct (mounted w) eqn:Hm; simpl; [|done].
  destruct (opt_string_eqb _ _) eqn:E; [done|].
  apply effect_body_wf.
  - by apply cleanup_effect_stopped.
  - by destruct (effect w).
Qed.

(** After re-rendering the effect is in step with the state. *)
Lemma render_settled w : settled (render w).
Proof.
  unfold settled. rewrite mounted_render. intros Hm.
  unfold render. rewrite Hm. simpl.
  destruct (opt_string_eqb _ _) eqn:E.
  - by apply opt_string_eqb_eq in E.
  - rewrite effectDep_effect_body, page_effect_body. by destruct (effect w).
Qed.

Lemma settled_render w : settled w -> render w = w.
Proof.
  intros H. unfold render. destruct (mounted w) eqn:Hm; [|done]. simpl.
  rewrite (H Hm).
  assert (opt_string_eqb (runId (page w)) (runId (page w)) = true) as ->; [|done].
  by apply opt_string_eqb_eq.
Qed.

Lemma render_changed w :
  mounted w = true -> runId (page w) <> effectDep w ->
  render w = effect_body (match effect w with
                          | Some sid => cleanup sid w
                          | None => w
                          end).
Proof.
  intros Hm Hne. unfold render. rewrite Hm. simpl.
  apply opt_string_eqb_neq in Hne. by rewrite Hne.
Qed.

Lemma tick_wf sid w : wf w -> wf (tick sid w).
Proof.
  intros Hw. unfold tick.
  destruct (sessions w !! sid) as [s|] eqn:Hs; [|done].
  destruct (interval s) as [tm|] eqn:Hi; [|done].
  destruct Hw as [H1 H2].
  assert (He : effect w = Some sid).
  { destruct (decide (effect w = Some sid)) as [|Hne]; [done|].
    destruct (H1 sid s Hs Hne) as [_ Hn]. congruence. }
  eapply wf_same_control; [apply same_control_poll|].
  split; simpl.
  - intros sid' s' Hs' Hne. rewrite list_lookup_insert_ne in Hs' by congruence.
    by apply (H1 sid' s').
  - intros sid' He'. rewrite He in He'. injection He' as <-.
    destruct (H2 sid He) as (Hm & s0 & Hs0 & Hc & Hint & Hdep & Htr).
    rewrite Hs in Hs0. injection Hs0 as <-.
    split; [done|]. eexists. split.
    + apply list_lookup_insert_eq. by eapply lookup_lt_Some.
    + simpl. repeat split; eauto.
Qed.

Lemma wf_inflight l w : wf w -> wf (with_inflight l w).
Proof. apply wf_same_control, same_control_inflight. Qed.

Lemma step_wf w e : wf w -> wf (step t w e).
Proof.
  intros Hw. destruct e as [i| |r|err|sid|sid st|sid err|dt| |]; simpl.
  - by eapply wf_same_control; [apply same_control_setState|].
  - destruct (mounted w && negb (loading (page w))); [|done].
    by eapply wf_same_control; [apply same_control_handleRun|].
  - destruct (settle PendingRun (inflight w)) as [l|]; [|done].
    eapply wf_same_control; [apply same_control_handleRun_then|by apply wf_inflight].
  - destruct (settle PendingRun (inflight w)) as [l|]; [|done].
    eapply wf_same_control; [apply same_control_handleRun_catch|by apply wf_inflight].
  - by apply tick_wf.
  - destruct (settle (PendingStatus sid) (inflight w)) as [l|]; [|done].
    eapply wf_same_control; [apply same_control_poll_then|by apply wf_inflight].
  - destruct (settle (PendingStatus sid) (inflight w)) as [l|]; [|done].
    eapply wf_same_control; [apply same_control_poll_catch|by apply wf_inflight].
  - destruct (may_elapse dt w); [|done].
    by eapply wf_same_control; [apply same_control_now|].
  - by apply render_wf.
  - destruct (mounted w) eqn:Hm; [|done].
    pose proof (cleanup_effect_stopped w Hw) as Hst.
    split; simpl.
    + intros sid s Hs _. apply (Hst sid s).
      by destruct (effect w).
    + by destruct (effect w).
Qed.

Lemma run_wf w es : wf w -> wf (run t w es).
Proof.
  revert w. induction es as [|e es IH]; intros w Hw; [done|].
  simpl. apply IH. by apply step_wf.
Qed.

Lemma mount_wf t0 : wf (mount t0).
Proof. by repeat split. Qed.

Lemma reachable_wf w : reachable t w -> wf w.
Proof. intros (t0 & es & ->). apply run_wf, mount_wf. Qed.

Lemma reachable_step w e : reachable t w -> reachable t (step t w e).
Proof.
  intros (t0 & es & ->). exists t0, (es ++ [e]).
  unfold run. by rewrite fold_left_app.
Qed.

(** *** Stopped sessions *)

Lemma stopped_is_cancelled w sid : stopped w -> is_cancelled sid w = true.
Proof.
  intros Hst. unfold is_cancelled.
  destruct (sessions w !! sid) as [s|] eqn:Hs; [|done]. by apply (Hst sid s).
Qed.

Lemma stopped_tick w sid : stopped w -> tick sid w = w.
Proof.
  intros Hst. unfold tick.
  destruct (sessions w !! sid) as [s|] eqn:Hs; [|done].
  destruct (Hst sid s Hs) as [_ ->]. done.
Qed.

Lemma cancelled_poll_then sid st w : is_cancelled sid w = true -> poll_then t sid st w = w.
Proof. unfold poll_then. by intros ->. Qed.

Lemma cancelled_poll_catch sid err w :
  is_cancelled sid w = true -> poll_catch t sid err w = w.
Proof. unfold poll_catch. by intros ->. Qed.

(** In a world whose sessions are all stopped and whose effect is in step
    with the state, the timers, the clock, the late answers and re-rendering
    change neither the state nor the request log. *)
Lemma quiet_step w e :
  stopped w -> settled w -> poll_event e ->
  page (step t w e) = page w /\ calls (step t w e) = calls w
  /\ same_control w (step t w e).
Proof.
  intros Hst Hse He.
  destruct e as [i| |r|err|sid|sid st|sid err|dt| |]; try done; simpl.
  - rewrite stopped_tick by done. by split_and!.
  - destruct (settle (PendingStatus sid) (inflight w)) as [l|]; [|by split_and!].
    rewrite cancelled_poll_then by by apply (stopped_is_cancelled w sid).
    by split_and!.
  - destruct (settle (PendingStatus sid) (inflight w)) as [l|]; [|by split_and!].
    rewrite cancelled_poll_catch by by apply (stopped_is_cancelled w sid).
    by split_and!.
  - destruct (may_elapse dt w); by split_and!.
  - rewrite settled_render by done. by split_and!.
Qed.

Lemma quiet_run w es :
  stopped w -> settled w -> Forall poll_event es ->
  page (run t w es) = page w /\ calls (run t w es) = calls w
  /\ same_control w (run t w es).
Proof.
  revert w. induction es as [|e es IH]; intros w Hst Hse Hes.
  - by split_and!.
  - apply Forall_cons in Hes as [He Hes]. simpl.
    destruct (quiet_step w e Hst Hse He) as (Hp & Hc & Hsc).
    destruct (IH (step t w e)) as (Hp' & Hc' & Hsc'); [| |done|].
    + destruct Hsc as (_ & _ & _ & Hs). by apply (stopped_same_sessions w).
    + destruct Hsc as (Hm & Hd & _). unfold settled. by rewrite Hm, Hd, Hp.
    + split_and!; try congruence. by eapply same_control_trans.
Qed.

(** *** The session of the effect *)

Lemma live_session w sid :
  wf w -> is_cancelled sid w = false ->
  effect w = Some sid /\ mounted w = true /\
  exists s, sessions w !! sid = Some s /\ cancelled s = false /\
            is_Some (interval s) /\ effectDep w = Some (s_runId s) /\
            JS.truthy (s_runId s) = true.
Proof.
  intros [H1 H2] Hc. unfold is_cancelled in Hc.
  destruct (sessions w !! sid) as [s|] eqn:Hs; [|done].
  assert (He : effect w = Some sid).
  { destruct (decide (effect w = Some sid)) as [|Hne]; [done|].
    destruct (H1 sid s Hs Hne). congruence. }
  destruct (H2 sid He) as (Hm & s0 & Hs0 & Hc0 & Hi & Hdep & Htr).
  rewrite Hs in Hs0. injection Hs0 as <-.
  repeat split; [done..|]. exists s. by repeat split.
Qed.

(** Without a running session nothing is live. *)
Lemma no_effect_stopped w : wf w -> effect w = None -> stopped w.
Proof. intros [H1 _] He sid s Hs. apply (H1 sid s Hs). by rewrite He. Qed.

(** Re-rendering with a cleared [runId] while a session is running stops it. *)
Lemma render_cleared w sid :
  wf w -> effect w = Some sid -> runId (page w) = None ->
  render w = with_effect None None (cleanup sid w).
Proof.
  intros [H1 H2] He Hr. destruct (H2 sid He) as (Hm & s & _ & _ & _ & Hd & _).
  unfold render. rewrite Hm, Hr, Hd, He. simpl.
  unfold effect_body. simpl. by rewrite Hr.
Qed.

Lemma stopped_after_cleanup w sid :
  wf w -> effect w = Some sid -> stopped (with_effect None None (cleanup sid w)).
Proof.
  intros H0 He. pose proof (cleanup_effect_stopped w H0) as Hst.
  rewrite He in Hst. by apply (stopped_same_sessions (cleanup sid w)).
Qed.

(** What a live session does with an outcome that clears [runId]: the state
    is written at once and the session goes on; the re-render that follows
    stops it. *)
Lemma live_clears w sid (f : PageState -> PageState) :
  wf w -> is_cancelled sid w = false ->
  (forall p, runId (f p) = None) ->
  let w1 := setState f w in
  let w2 := render w1 in
  w1 = with_page f w
  /\ page w2 = f (page w) /\ stopped w2 /\ settled w2 /\ effect w2 = None
  /\ calls w2 = calls w /\ inflight w2 = inflight w /\ now w2 = now w.
Proof.
  intros Hw Hc Hf. destruct (live_session w sid Hw Hc) as (He & Hm & _). simpl.
  assert (Hset : setState f w = with_page f w) by (unfold setState; by rewrite Hm).
  assert (H0' : wf (with_page f w)).
  { eapply wf_same_control; [|exact Hw]. by repeat split. }
  rewrite Hset. split; [done|].
  rewrite (render_cleared _ sid); [|done|done|by simpl].
  split_and!; try done.
  - by apply (stopped_after_cleanup (with_page f w) sid).
  - intros _. simpl. by rewrite Hf.
Qed.

(** *** Applying a status *)

Lemma apply_status_terminal st p :
  terminal st = true ->
  runId (apply_status t st p) = None
  /\ is_terminal (status_of (apply_status t st p)) = true
  /\ runStatus (apply_status t st p) = Some st.
Proof.
  unfold terminal, apply_status. intros H.
  destruct (String.eqb (Api.status st) "completed" && bool_decide (is_Some (Api.result st)))
    eqn:E1.
  - apply andb_true_iff in E1 as [_ Hres]. apply bool_decide_eq_true in Hres.
    destruct Hres as [r Hr]. unfold status_of; simpl. by rewrite Hr.
  - simpl in H. by rewrite H.
Qed.

Lemma apply_status_nonterminal st p :
  terminal st = false -> apply_status t st p = setRunStatus (Some st) p.
Proof.
  unfold terminal, apply_status. intros H.
  apply orb_false_iff in H as [-> ->]. done.
Qed.

Lemma status_of_setRunStatus v p : status_of (setRunStatus v p) = status_of p.
Proof. done. Qed.

Lemma rank_le_3 s : (rank s <= 3)%nat.
Proof. destruct s; simpl; lia. Qed.

Lemma is_terminal_rank s : is_terminal s = true <-> rank s = 3%nat.
Proof. destruct s; simpl; split; (done || lia). Qed.

Lemma rank_apply_status st p :
  (rank (status_of p) <= rank (status_of (apply_status t st p)))%nat.
Proof.
  destruct (terminal st) eqn:E.
  - destruct (apply_status_terminal st p E) as (_ & Ht & _).
    apply is_terminal_rank in Ht. rewrite Ht. apply rank_le_3.
  - by rewrite apply_status_nonterminal, status_of_setRunStatus.
Qed.

Lemma is_cancelled_inflight sid l w :
  is_cancelled sid (with_inflight l w) = is_cancelled sid w.
Proof. done. Qed.

(** A status that is not terminal, received by a live session, is stored
    and nothing else happens: the session goes on, and its next tick sends
    the next status request. *)
Lemma poll_continues w sid st :
  reachable t w -> is_cancelled sid w = false -> PendingStatus sid ∈ inflight w ->
  terminal st = false ->
  let w' := step t w (StatusResolved sid st) in
  page w' = setRunStatus (Some st) (page w)
  /\ sessions w' = sessions w /\ effect w' = Some sid /\ calls w' = calls w
  /\ is_cancelled sid w' = false
  /\ exists s tm, sessions w' !! sid = Some s /\ interval s = Some tm
       /\ effectDep w' = Some (s_runId s)
       /\ (settled w -> runId (page w') = Some (s_runId s))
       /\ calls (step t w' (Tick sid))
          = calls w' ++ [(Z.max (now w') (due tm), Api.osukaApi_status (s_runId s))].
Proof.
  intros Hr Hc Hin Hnt. apply reachable_wf in Hr.
  destruct (settle_elem _ _ Hin) as [l Hl]. simpl. rewrite Hl.
  unfold poll_then. rewrite is_cancelled_inflight, Hc.
  destruct (live_session w sid Hr Hc) as (He & Hm & s & Hs & Hcs & [tm Hi] & Hrid & Htr).
  rewrite setState_mounted by done.
  simpl. rewrite apply_status_nonterminal by done.
  repeat split; try done.
  exists s, tm. repeat split; try done.
  - intros Hse. simpl. by rewrite <- (Hse Hm).
  - unfold tick; simpl. rewrite Hs, Hi. unfold poll; simpl.
    rewrite list_lookup_insert_eq by by eapply lookup_lt_Some. done.
Qed.

(** C6.  A status response whose status is neither "completed" nor "failed"
    (any other string, recognised or not) is applied without ending the
    session or the run: the snapshot [runStatus] becomes that response, the
    rest of the state - [runState], [runId], hence the run status - is as
    before, the session stays live with its interval armed, and its next
    tick issues the next status request for the same run: the one the
    effect ran with, which is the [runId] of the state unless a re-render
    is due. *)
Theorem unrecognized_status_continues_polling w sid st :
  reachable t w -> is_cancelled sid w = false -> PendingStatus sid ∈ inflight w ->
  Api.status st <> "completed"%string -> Api.status st <> "failed"%string ->
  let w' := step t w (StatusResolved sid st) in
  runStatus (page w') = Some st
  /\ page w' = setRunStatus (Some st) (page w)
  /\ runState (page w') = runState (page w)
  /\ runId (page w') = runId (page w)
  /\ status_of (page w') = status_of (page w)
  /\ sessions w' = sessions w
  /\ is_cancelled sid w' = false
  /\ exists s tm, sessions w' !! sid = Some s /\ interval s = Some tm
       /\ effectDep w' = Some (s_runId s)
       /\ (settled w -> runId (page w') = Some (s_runId s))
       /\ calls (step t w' (Tick sid))
          = calls w' ++ [(Z.max (now w') (due tm), Api.osukaApi_status (s_runId s))].
Proof.
  intros Hr Hc Hin Hn1 Hn2 w'.
  assert (Hnt : terminal st = false).
  { unfold terminal. apply String.eqb_neq in Hn1, Hn2. by rewrite Hn1, Hn2. }
  destruct (poll_continues w sid st Hr Hc Hin Hnt) as (Hp & Hs & He & Hcl & Hc' & Hnext).
  fold w' in Hp, Hs, He, Hcl, Hc', Hnext.
  repeat split; try done; by rewrite Hp.
Qed.

(** C9.  A status response that says "completed" but carries no result is
    not terminal: the run does not become completed, nothing is stored in
    [runState], [runId] stays, and the session goes on scheduling status
    checks - its next tick issues one. *)
Theorem completed_without_result_continues_polling w sid st :
  reachable t w -> is_cancelled sid w = false -> PendingStatus sid ∈ inflight w ->
  Api.status st = "completed"%string -> Api.result st = None ->
  let w' := step t w (StatusResolved sid st) in
  runState (page w') = runState (page w)
  /\ response (runState (page w')) = response (runState (page w))
  /\ status_of (page w') = status_of (page w)
  /\ runId (page w') = runId (page w)
  /\ runStatus (page w') = Some st
  /\ sessions w' = sessions w
  /\ is_cancelled sid w' = false
  /\ exists s tm, sessions w' !! sid = Some s /\ interval s = Some tm
       /\ effectDep w' = Some (s_runId s)
       /\ (settled w -> runId (page w') = Some (s_runId s))
       /\ calls (step t w' (Tick sid))
          = calls w' ++ [(Z.max (now w') (due tm), Api.osukaApi_status (s_runId s))].
Proof.
  intros Hr Hc Hin Hst Hres w'.
  assert (Hnt : terminal st = false).
  { unfold terminal. by rewrite Hst, Hres. }
  destruct (poll_continues w sid st Hr Hc Hin Hnt) as (Hp & Hs & He & Hcl & Hc' & Hnext).
  fold w' in Hp, Hs, He, Hcl, Hc', Hnext.
  repeat split; try done; by rewrite Hp.
Qed.

(** *** The status never moves backward under poll events *)

Lemma step_rank w e :
  poll_event e ->
  (rank (status_of (page w)) <= rank (status_of (page (step t w e))))%nat.
Proof.
  intros He. destruct e as [i| |r|err|sid|sid st|sid err|dt| |]; try done; simpl.
  - by rewrite page_tick.
  - destruct (settle (PendingStatus sid) (inflight w)) as [l|]; [|done].
    unfold poll_then. destruct (is_cancelled sid (with_inflight l w)); [done|].
    rewrite page_setState. simpl.
    destruct (mounted w); [apply rank_apply_status|done].
  - destruct (settle (PendingStatus sid) (inflight w)) as [l|]; [|done].
    unfold poll_catch. destruct (is_cancelled sid (with_inflight l w)); [done|].
    simpl. rewrite page_setState. simpl.
    destruct (mounted w); [|done]. apply rank_le_3.
  - by destruct (may_elapse dt w).
  - by rewrite page_render.
Qed.

Lemma statuses_cons w e es :
  statuses t w (e :: es) = status_of (page w) :: statuses t (step t w e) es.
Proof. done. Qed.

Lemma statuses_head w es :
  exists r, statuses t w es = status_of (page w) :: r.
Proof. destruct es; by eexists. Qed.

Lemma statuses_nondecreasing w es :
  Forall poll_event es -> nondecreasing (List.map rank (statuses t w es)).
Proof.
  revert w. induction es as [|e es IH]; intros w Hes; [done|].
  apply Forall_cons in Hes as [He Hes]. rewrite statuses_cons.
  specialize (IH (step t w e) Hes).
  destruct (statuses_head (step t w e) es) as [r Hr]. rewrite Hr in *.
  simpl. split; [by apply step_rank|done].
Qed.

Lemma status_eqb_refl s : status_eqb s s = true.
Proof. by destruct s. Qed.

Lemma terminal_transitions_cons a b l :
  terminal_transitions (a :: b :: l)
  = ((if negb (status_eqb a b) && is_terminal b then 1 else 0)
     + terminal_transitions (b :: l))%nat.
Proof. done. Qed.

(** Once every session is stopped and the effect is in step, the status
    stays what it is. *)
Lemma quiet_statuses w es :
  stopped w -> settled w -> Forall poll_event es ->
  terminal_transitions (statuses t w es) = 0%nat.
Proof.
  revert w. induction es as [|e es IH]; intros w Hst Hse Hes; [done|].
  apply Forall_cons in Hes as [He Hes]. rewrite statuses_cons.
  destruct (quiet_step w e Hst Hse He) as (Hp & _ & Hm & Hd & _ & Hs).
  assert (IH' : terminal_transitions (statuses t (step t w e) es) = 0%nat).
  { apply IH; [by apply (stopped_same_sessions w)| |done].
    unfold settled. by rewrite Hm, Hd, Hp. }
  destruct (statuses_head (step t w e) es) as [r Hr]. rewrite Hr in *.
  rewrite terminal_transitions_cons, IH', Hp, status_eqb_refl. done.
Qed.

(** C1, as the page has it.  A terminal status ("completed" with a result,
    or "failed") applied by the live session makes the run terminal and
    clears [runId] at once; the session itself is stopped by the clean-up
    of the effect, which React runs when it re-renders with the cleared
    [runId].  The re-render changes no state and sends nothing; after it
    every session is cancelled with its interval cleared, and whatever
    ticks, clock advances, late answers and re-renders follow, the component
    state and the request log stay as they are.  Over the answer, the
    re-render and those later events the run enters a terminal status at
    most once - exactly once when it was polling.  Over any sequence of
    ticks, answers and re-renders the status never decreases in the order
    idle < submitting < polling < {completed, failed}. *)
Theorem terminal_status_is_final_after_cleanup w sid st es :
  reachable t w -> is_cancelled sid w = false -> PendingStatus sid ∈ inflight w ->
  terminal st = true -> Forall poll_event es ->
  let w1 := step t w (StatusResolved sid st) in
  let w2 := step t w1 Render in
  is_terminal (status_of (page w1)) = true
  /\ runId (page w1) = None
  /\ runStatus (page w1) = Some st
  /\ page w2 = page w1
  /\ calls w2 = calls w
  /\ stopped w2
  /\ effect w2 = None
  /\ page (run t w2 es) = page w2
  /\ calls (run t w2 es) = calls w2
  /\ stopped (run t w2 es)
  /\ (terminal_transitions (statuses t w (StatusResolved sid st :: Render :: es)) <= 1)%nat
  /\ (status_of (page w) = polling ->
      terminal_transitions (statuses t w (StatusResolved sid st :: Render :: es)) = 1%nat)
  /\ (forall w0 es0, Forall poll_event es0 ->
        nondecreasing (List.map rank (statuses t w0 es0))).
Proof.
  intros Hr Hc Hin Hterm Hes w1 w2.
  apply reachable_wf in Hr.
  destruct (settle_elem _ _ Hin) as [l Hl].
  assert (Hw1 : w1 = setState (apply_status t st) (with_inflight l w)).
  { unfold w1; simpl. rewrite Hl. unfold poll_then.
    by rewrite is_cancelled_inflight, Hc. }
  destruct (live_clears (with_inflight l w) sid (apply_status t st))
    as (Hset & Hp & Hst & Hse & He & Hcl & _); [by apply wf_inflight|done| |].
  { intros p. by destruct (apply_status_terminal st p Hterm). }
  rewrite <- Hw1 in Hset, Hp, Hst, Hse, He, Hcl.
  change (render w1) with w2 in Hp, Hst, Hse, He, Hcl. simpl in Hp, Hcl.
  assert (Hp1 : page w1 = apply_status t st (page w)) by by rewrite Hset.
  destruct (apply_status_terminal st (page w) Hterm) as (Hrid & Hfin & Hrs).
  destruct (quiet_run w2 es Hst Hse Hes) as (Hp' & Hc' & _ & _ & _ & Hs').
  assert (Htt : terminal_transitions (statuses t w (StatusResolved sid st :: Render :: es))
                = if negb (status_eqb (status_of (page w)) (status_of (page w1)))
                  then 1%nat else 0%nat).
  { rewrite !statuses_cons. fold w1. fold w2.
    pose proof (quiet_statuses w2 es Hst Hse Hes) as Hq.
    destruct (statuses_head w2 es) as [r Hr']. rewrite Hr' in *.
    rewrite !terminal_transitions_cons, Hq, Hp, <- Hp1, status_eqb_refl.
    rewrite Hp1, Hfin, andb_true_r. simpl. lia. }
  split_and!; try done.
  - by rewrite Hp1.
  - by rewrite Hp1.
  - by rewrite Hp1.
  - congruence.
  - by apply (stopped_same_sessions w2).
  - rewrite Htt. destruct (negb _); lia.
  - intros Hpoll. rewrite Htt, Hpoll.
    rewrite Hp1. by destruct (status_of (apply_status t st (page w))).
  - intros w0 es0 H0. by apply statuses_nondecreasing.
Qed.

(** C2.  When a status request of a cancelled session settles - resolved or
    rejected - nothing is mutated: [runStatus], [runState], [runId] and the
    whole component state, the sessions and the request log are as before;
    only the promise is no longer pending, and the session's interval is
    cleared, so no further tick of it does anything.  The clean-up of the
    effect is what sets the flag, and it leaves the request in flight. *)
Theorem cancelled_session_discards_response w sid
    (outcome : Api.OsukaRunStatusResponse + Thrown) :
  reachable t w -> is_cancelled sid w = true -> PendingStatus sid ∈ inflight w ->
  let e := match outcome with
           | inl status => StatusResolved sid status
           | inr err => StatusRejected sid err
           end in
  let w' := step t w e in
  runStatus (page w') = runStatus (page w)
  /\ runState (page w') = runState (page w)
  /\ runId (page w') = runId (page w)
  /\ page w' = page w
  /\ sessions w' = sessions w
  /\ calls w' = calls w
  /\ settle (PendingStatus sid) (inflight w) = Some (inflight w')
  /\ step t w' (Tick sid) = w'
  /\ (forall w0, is_cancelled sid (cleanup sid w0) = true
                 /\ inflight (cleanup sid w0) = inflight w0).
Proof.
  intros Hr Hc Hin e w'. apply reachable_wf in Hr.
  assert (Hclean : forall w0, is_cancelled sid (cleanup sid w0) = true
                              /\ inflight (cleanup sid w0) = inflight w0).
  { intros w0. split; [|done]. unfold is_cancelled, cleanup. simpl.
    rewrite list_lookup_alter_eq. by destruct (sessions w0 !! sid). }
  destruct (settle_elem _ _ Hin) as [l Hl].
  assert (Hw' : w' = with_inflight l w).
  { unfold w', e. destruct outcome as [st|err]; simpl; rewrite Hl.
    - by apply cancelled_poll_then.
    - by apply cancelled_poll_catch. }
  rewrite Hw'. split_and!; try done. simpl.
  unfold tick. simpl. destruct (sessions w !! sid) as [s|] eqn:Hs; [|done].
  destruct Hr as [H1 H2].
  assert (Hne : effect w <> Some sid).
  { intros He. destruct (H2 sid He) as (_ & s0 & Hs0 & Hc0 & _).
    unfold is_cancelled in Hc. rewrite Hs in Hc, Hs0. congruence. }
  destruct (H1 sid s Hs Hne) as [_ ->]. done.
Qed.

(** C4, as the page has it.  When the status request of a live session is
    rejected, the run becomes failed with the message of the thrown [Error]
    (the generic [t.common.error] for any other thrown value) and [runId] is
    cleared at once.  The session is stopped by the clean-up of the effect,
    which React runs when it re-renders with the cleared [runId]: the
    re-render changes no state and sends nothing, and from it on the
    session - every session - is cancelled with its interval cleared: there
    is no retry, no event of the timers, of the transport or of React issues
    a further request or changes the state. *)
Theorem poll_transport_error_fails_run w sid err es :
  reachable t w -> is_cancelled sid w = false -> PendingStatus sid ∈ inflight w ->
  Forall poll_event es ->
  let w' := step t w (StatusRejected sid err) in
  let w'' := step t w' Render in
  runState (page w') = mkRunState None (Some (message_of t err))
  /\ message_of t err = match err with
                        | ErrorObject m => m
                        | OtherValue => common_error t
                        end
  /\ status_of (page w') = failed
  /\ runId (page w') = None
  /\ calls w' = calls w
  /\ page w'' = page w'
  /\ is_cancelled sid w'' = true
  /\ stopped w''
  /\ effect w'' = None
  /\ calls w'' = calls w
  /\ calls (run t w'' es) = calls w
  /\ page (run t w'' es) = page w'.
Proof.
  intros Hr Hc Hin Hes w' w''. apply reachable_wf in Hr.
  destruct (settle_elem _ _ Hin) as [l Hl].
  set (f := fun p => setRunId None
                       (setRunState (mkRunState None (Some (message_of t err))) p)).
  assert (Hw' : w' = setState f (with_inflight l w)).
  { unfold w'; simpl. rewrite Hl. unfold poll_catch.
    by rewrite is_cancelled_inflight, Hc. }
  destruct (live_clears (with_inflight l w) sid f)
    as (Hset & Hp & Hst & Hse & He & Hcl & _); [by apply wf_inflight|done|done|].
  rewrite <- Hw' in Hset, Hp, Hst, Hse, He, Hcl.
  change (render w') with w'' in Hp, Hst, Hse, He, Hcl. simpl in Hp, Hcl.
  assert (Hp1 : page w' = f (page w)) by by rewrite Hset.
  destruct (quiet_run w'' es Hst Hse Hes) as (Hp' & Hc' & _).
  split_and!; try done.
  - by rewrite Hp1.
  - by rewrite Hp1.
  - by rewrite Hp1.
  - by rewrite Hset.
  - congruence.
  - by apply stopped_is_cancelled.
  - congruence.
  - congruence.
Qed.

(** *** The cadence of a session *)

(** The request log of a session that started at [t0] on top of the log
    [base] and has ticked [n] times: one status request every 2000 ms. *)
Lemma cadence_step w sid rid base t0 (n : nat) e :
  session_event sid e ->
  sessions w !! sid
    = Some (mkSession rid false (Some (mkTimer 2000 (t0 + 2000 * Z.of_nat (S n))))) ->
  now w <= t0 + 2000 * Z.of_nat (S n) ->
  effectDep w = runId (page w) ->
  calls w = base ++ List.map (fun i : nat => (t0 + 2000 * Z.of_nat i, Api.osukaApi_status rid))
                      (seq 0 (S n)) ->
  let n' := (n + ticks [e])%nat in
  let w' := step t w e in
  sessions w' !! sid
    = Some (mkSession rid false (Some (mkTimer 2000 (t0 + 2000 * Z.of_nat (S n')))))
  /\ now w' <= t0 + 2000 * Z.of_nat (S n')
  /\ effectDep w' = runId (page w')
  /\ calls w' = base ++ List.map (fun i : nat => (t0 + 2000 * Z.of_nat i, Api.osukaApi_status rid))
                         (seq 0 (S n')).
Proof.
  intros He Hs Hnow Hdep Hcalls.
  destruct e as [i| |r|err|sid'|sid' st|sid' err|dt| |]; try done; simpl in He |- *.
  - subst sid'. unfold tick. rewrite Hs. simpl.
    unfold poll; simpl.
    rewrite list_lookup_insert_eq by by eapply lookup_lt_Some. simpl.
    split_and!; try done.
    + rewrite list_lookup_insert_eq by by eapply lookup_lt_Some.
      do 4 f_equal. lia.
    + lia.
    + rewrite Hcalls, <- app_assoc. f_equal.
      replace (n + 1)%nat with (S n) by lia.
      rewrite (seq_S n 1), List.map_app. simpl. do 4 f_equal. lia.
  - destruct He as [-> Hnt]. rewrite Nat.add_0_r.
    destruct (settle (PendingStatus sid) (inflight w)) as [l|]; [|done].
    unfold poll_then, is_cancelled. simpl. rewrite Hs. simpl.
    unfold setState; simpl. destruct (mounted w); simpl; [|done].
    split_and!; try done. by rewrite apply_status_nonterminal.
  - rewrite Nat.add_0_r. destruct (may_elapse dt w) eqn:E; [|done]. simpl.
    split_and!; try done.
    unfold may_elapse in E. apply andb_true_iff in E as [_ E].
    rewrite forallb_forall in E.
    specialize (E _ (proj1 (list_elem_of_In _ _) (list_elem_of_lookup_2 _ _ _ Hs))).
    simpl in E. by apply Z.leb_le in E.
  - rewrite Nat.add_0_r. rewrite settled_render by (by intros _). done.
Qed.

Lemma cadence_run es : forall w sid rid base t0 (n : nat),
  Forall (session_event sid) es ->
  sessions w !! sid
    = Some (mkSession rid false (Some (mkTimer 2000 (t0 + 2000 * Z.of_nat (S n))))) ->
  now w <= t0 + 2000 * Z.of_nat (S n) ->
  effectDep w = runId (page w) ->
  calls w = base ++ List.map (fun i : nat => (t0 + 2000 * Z.of_nat i, Api.osukaApi_status rid))
                      (seq 0 (S n)) ->
  calls (run t w es)
    = base ++ List.map (fun i : nat => (t0 + 2000 * Z.of_nat i, Api.osukaApi_status rid))
                (seq 0 (S (n + ticks es))).
Proof.
  induction es as [|e es IH]; intros w sid rid base t0 n Hes Hs Hnow Hdep Hcalls.
  - simpl. by rewrite Nat.add_0_r.
  - apply Forall_cons in Hes as [He Hes].
    destruct (cadence_step w sid rid base t0 n e He Hs Hnow Hdep Hcalls)
      as (Hs' & Hnow' & Hdep' & Hcalls').
    simpl run. rewrite (IH _ sid rid base t0 _ Hes Hs' Hnow' Hdep' Hcalls').
    do 3 f_equal. destruct e; simpl; lia.
Qed.

Lemma effect_body_truthy w rid :
  runId (page w) = Some rid -> JS.truthy rid = true ->
  effect_body w
  = request (Api.osukaApi_status rid) (PendingStatus (length (sessions w)))
      (with_effect (Some rid) (Some (length (sessions w)))
         (with_sessions
            (fun l => l ++ [mkSession rid false (Some (mkTimer 2000 (now w + 2000)))])
            w)).
Proof.
  intros Hrid Htr. unfold effect_body. rewrite Hrid, Htr. unfold poll. simpl.
  rewrite lookup_app_r by done. by rewrite Nat.sub_diag.
Qed.

(** The session starts when React re-renders after the submission resolved
    with a truthy run identifier other than the one the effect last ran
    with: the first status request bears the time of the re-render, and the
    older session is stopped. *)
Lemma submission_starts_polling w r :
  reachable t w -> mounted w = true -> PendingRun ∈ inflight w ->
  JS.truthy (Api.start_run_id r) = true ->
  effectDep w <> Some (Api.start_run_id r) ->
  let w' := step t (step t w (RunResolved r)) Render in
  calls w' = calls w ++ [(now w, Api.osukaApi_status (Api.start_run_id r))]
  /\ runId (page w') = Some (Api.start_run_id r)
  /\ effect w' = Some (length (sessions w))
  /\ sessions w' !! length (sessions w)
     = Some (mkSession (Api.start_run_id r) false (Some (mkTimer 2000 (now w + 2000))))
  /\ now w' = now w.
Proof.
  intros Hr Hm Hin Htr Hne. apply reachable_wf in Hr.
  destruct (settle_elem _ _ Hin) as [l Hl]. simpl. rewrite Hl.
  unfold handleRun_then. rewrite !setState_mounted by solve_mounted.
  rewrite render_changed; [|done|simpl; congruence].
  match goal with |- context [effect_body ?y] => set (Y := y) end.
  assert (HY : calls Y = calls w /\ now Y = now w
               /\ length (sessions Y) = length (sessions w)
               /\ runId (page Y) = Some (Api.start_run_id r)).
  { unfold Y. simpl. destruct (effect w); simpl; by rewrite ?length_alter. }
  destruct HY as (Hc & Hn & Hlen & Hrid).
  rewrite (effect_body_truthy Y (Api.start_run_id r) Hrid Htr). simpl.
  rewrite Hc, Hn, Hlen. split_and!; try done.
  rewrite lookup_app_r by lia. by rewrite Hlen, Nat.sub_diag.
Qed.

(** C5.  The effect body run with a truthy [runId] starts a session that
    issues its first status request at once - at the very time the session
    starts, before any interval has elapsed - and arms an interval of period
    2000 ms.  As long as the session runs, the status requests are exactly
    one at the start and one per tick, the tick number [i] at
    [start + 2000 * i] ms. *)
Theorem first_check_immediate_then_every_2000ms w rid es :
  runId (page w) = Some rid -> JS.truthy rid = true ->
  Forall (session_event (length (sessions w))) es ->
  let sid := length (sessions w) in
  let w0 := effect_body w in
  calls w0 = calls w ++ [(now w, Api.osukaApi_status rid)]
  /\ now w0 = now w
  /\ sessions w0 !! sid
     = Some (mkSession rid false (Some (mkTimer 2000 (now w + 2000))))
  /\ PendingStatus sid ∈ inflight w0
  /\ calls (run t w0 es)
     = calls w ++ List.map (fun i : nat => (now w + 2000 * Z.of_nat i, Api.osukaApi_status rid))
                   (seq 0 (S (ticks es))).
Proof.
  intros Hrid Htr Hes sid w0.
  assert (Hlook : (sessions w ++ [mkSession rid false (Some (mkTimer 2000 (now w + 2000)))])
                    !! sid
                  = Some (mkSession rid false (Some (mkTimer 2000 (now w + 2000))))).
  { unfold sid. rewrite lookup_app_r by done. by rewrite Nat.sub_diag. }
  pose proof (effect_body_truthy w rid Hrid Htr) as Hw0. fold sid w0 in Hw0.
  assert (H1 : calls w0 = calls w ++ [(now w, Api.osukaApi_status rid)]) by by rewrite Hw0.
  assert (H3 : sessions w0 !! sid
               = Some (mkSession rid false (Some (mkTimer 2000 (now w + 2000)))))
    by by rewrite Hw0.
  split_and!; try done.
  - by rewrite Hw0.
  - rewrite Hw0. simpl. apply elem_of_app. right. apply list_elem_of_singleton. done.
  - apply (cadence_run es w0 sid rid (calls w) (now w) 0%nat); try done;
      rewrite Hw0; simpl; try done; try lia.
    do 3 f_equal. lia.
Qed.

(** *** Submission *)

Lemma count_runs_app l l' : count_runs (l ++ l') = (count_runs l + count_runs l')%nat.
Proof. unfold count_runs. by rewrite List.filter_app, length_app. Qed.

Lemma count_runs_poll sid w : count_runs (calls (poll sid w)) = count_runs (calls w).
Proof.
  unfold poll. destruct (sessions w !! sid); [|done]. simpl.
  rewrite count_runs_app. unfold count_runs at 2. simpl. lia.
Qed.

Lemma count_runs_effect_body w :
  count_runs (calls (effect_body w)) = count_runs (calls w).
Proof.
  unfold effect_body. destruct (runId (page w)) as [rid|]; [|done].
  destruct (JS.truthy rid); [|done]. by rewrite count_runs_poll.
Qed.

Lemma count_runs_render w : count_runs (calls (render w)) = count_runs (calls w).
Proof.
  unfold render. destruct (negb (mounted w) || _); [done|].
  rewrite count_runs_effect_body. by destruct (effect w).
Qed.

Lemma now_setState f w : now (setState f w) = now w.
Proof. unfold setState. by destruct (mounted w). Qed.

Lemma calls_setState f w : calls (setState f w) = calls w.
Proof. unfold setState. by destruct (mounted w). Qed.

Lemma count_runs_tick sid w : count_runs (calls (tick sid w)) = count_runs (calls w).
Proof.
  unfold tick. destruct (sessions w !! sid) as [s|]; [|done].
  destruct (interval s); [|done]. by rewrite count_runs_poll.
Qed.

Lemma loading_apply_status st p : loading (apply_status t st p) = loading p.
Proof.
  unfold apply_status.
  destruct (String.eqb (Api.status st) "completed" && _); [done|].
  by destruct (String.eqb (Api.status st) "failed").
Qed.

Lemma loading_edit i p : loading (edit i p) = loading p.
Proof. by destruct i. Qed.

(** While [loading] is set, no event but the settling of the submission
    clears it or submits. *)
Lemma loading_step w e :
  not_run_settled e -> loading (page w) = true ->
  loading (page (step t w e)) = true
  /\ count_runs (calls (step t w e)) = count_runs (calls w).
Proof.
  intros He Hl. destruct e as [i| |r|err|sid|sid st|sid err|dt| |]; try done; simpl.
  - rewrite page_setState, calls_setState.
    destruct (mounted w); by rewrite ?loading_edit.
  - by rewrite Hl, andb_false_r.
  - by rewrite page_tick, count_runs_tick.
  - destruct (settle (PendingStatus sid) (inflight w)) as [l|]; [|done].
    unfold poll_then. destruct (is_cancelled sid (with_inflight l w)); [done|].
    rewrite page_setState, calls_setState. simpl.
    destruct (mounted w); by rewrite ?loading_apply_status.
  - destruct (settle (PendingStatus sid) (inflight w)) as [l|]; [|done].
    unfold poll_catch. destruct (is_cancelled sid (with_inflight l w)); [done|].
    simpl. rewrite page_setState, calls_setState. simpl.
    by destruct (mounted w).
  - by destruct (may_elapse dt w).
  - by rewrite page_render, count_runs_render.
  - destruct (mounted w); [|done]. simpl. by destruct (effect w).
Qed.

Lemma loading_run w es :
  Forall not_run_settled es -> loading (page w) = true ->
  loading (page (run t w es)) = true
  /\ count_runs (calls (run t w es)) = count_runs (calls w).
Proof.
  revert w. induction es as [|e es IH]; intros w Hes Hl; [done|].
  apply Forall_cons in Hes as [He Hes]. simpl.
  destruct (loading_step w e He Hl) as [Hl' Hc'].
  destruct (IH (step t w e) Hes Hl') as [Hl'' Hc'']. split; congruence.
Qed.

(** [handleRun] on a valid form. *)
Lemma handleRun_valid w :
  mounted w = true -> JS.truthy (JS.trim (category (page w))) = true ->
  handleRun t w
  = request (Api.osukaApi_run (build_request (page w))) PendingRun
      (with_page (fun p =>
         setLocalLogs (fun prev => prev ++ [osuka_logsRequestSent t])
           (setRunStatus None
              (setLocalLogs (fun _ => [osuka_logsStarting t])
                 (setRunState (mkRunState None None) (setLoading true p))))) w).
Proof.
  intros Hm Hc. unfold handleRun. rewrite Hc. simpl negb. cbv iota.
  by rewrite !setState_mounted by solve_mounted.
Qed.

(** C3, as the page has it.  The guard of the submission is the Run button,
    which is disabled while [loading]: after a click on a valid form the
    state is [loading] and one submit request is pending; a second click does
    nothing at all, and until the submission settles no event - clicks
    included - submits again.  [handleRun] itself has no such guard. *)
Theorem run_button_ignored_while_submitting w es :
  reachable t w -> mounted w = true -> loading (page w) = false ->
  JS.truthy (JS.trim (category (page w))) = true ->
  Forall not_run_settled es ->
  let w1 := step t w Click in
  loading (page w1) = true
  /\ calls w1 = calls w ++ [(now w, Api.osukaApi_run (build_request (page w)))]
  /\ inflight w1 = inflight w ++ [PendingRun]
  /\ step t w1 Click = w1
  /\ count_runs (calls (run t w1 (Click :: es))) = S (count_runs (calls w)).
Proof.
  intros Hr Hm Hl Hc Hes w1.
  assert (Hw1 : w1 = handleRun t w).
  { unfold w1; simpl. by rewrite Hm, Hl. }
  rewrite (handleRun_valid w Hm Hc) in Hw1.
  assert (Hl1 : loading (page w1) = true) by by rewrite Hw1.
  assert (Hcl : calls w1 = calls w ++ [(now w, Api.osukaApi_run (build_request (page w)))])
    by by rewrite Hw1.
  assert (Hck : step t w1 Click = w1) by (simpl; by rewrite Hl1, andb_false_r).
  split_and!; try done.
  - by rewrite Hw1.
  - change (run t w1 (Click :: es)) with (run t (step t w1 Click) es). rewrite Hck.
    destruct (loading_run w1 es Hes Hl1) as [_ ->].
    rewrite Hcl, count_runs_app. unfold count_runs at 2. simpl. lia.
Qed.

(** *** The log card *)

Lemma map_snd_imap {A B} (f : nat -> A) (l : list B) :
  List.map snd (imap (fun idx line => (f idx, line)) l) = l.
Proof.
  revert f. induction l as [|x l IH]; intros f; [done|].
  simpl. f_equal. apply (IH (f ∘ S)).
Qed.

Lemma length_zero_nil {A} (l : list A) : (length l =? 0)%nat = true -> l = [].
Proof. by destruct l. Qed.

Lemma remoteLogs_apply_status st p : remoteLogs (apply_status t st p) = Api.logs st.
Proof.
  unfold apply_status.
  destruct (String.eqb (Api.status st) "completed" && _); [done|].
  by destruct (String.eqb (Api.status st) "failed").
Qed.

Lemma localLogs_apply_status st p : localLogs (apply_status t st p) = localLogs p.
Proof.
  unfold apply_status.
  destruct (String.eqb (Api.status st) "completed" && _); [done|].
  by destruct (String.eqb (Api.status st) "failed").
Qed.

(** C7.  The log lines on screen are the local entries followed by the
    remote entries of the latest status response, each in its own order,
    nothing dropped, merged or moved - local ["started"; "sent"] and remote
    ["queued"; "done"] show as ["started"; "sent"; "queued"; "done"].  The
    local entries are appended at the end at each milestone of [handleRun]
    (starting, request sent, response received); applying a status replaces
    the remote entries by those of the response and keeps the local ones. *)
Theorem displayed_logs_local_then_remote (p : PageState) (w : World)
    (st : Api.OsukaRunStatusResponse) (r : Api.OsukaRunStartResponse) :
  displayedLogs p = localLogs p ++ remoteLogs p
  /\ displayedLogs
       (setRunStatus
          (Some (Api.mkRunStatus (Api.run_id st) (Api.status st)
                   ["queued"%string; "done"%string] (Api.result st) (Api.error st)))
          (setLocalLogs (fun _ => ["started"%string; "sent"%string]) p))
     = ["started"%string; "sent"%string; "queued"%string; "done"%string]
  /\ localLogs (page (handleRun t w))
     = (if mounted w && JS.truthy (JS.trim (category (page w)))
        then [osuka_logsStarting t; osuka_logsRequestSent t]
        else localLogs (page w))
  /\ localLogs (page (handleRun_then t r w))
     = (if mounted w then localLogs (page w) ++ [osuka_logsResponseReceived t]
        else localLogs (page w))
  /\ remoteLogs (apply_status t st p) = Api.logs st
  /\ localLogs (apply_status t st p) = localLogs p.
Proof.
  split_and!.
  - unfold displayedLogs, logCard. destruct (logs_shown p) eqn:E.
    + by rewrite List.map_app, !map_snd_imap.
    + unfold logs_shown in E.
      apply orb_false_iff in E as [E _]. apply orb_false_iff in E as [E1 E2].
      apply negb_false_iff, length_zero_nil in E2. rewrite E2.
      destruct (localLogs p); [done|]. done.
  - done.
  - unfold handleRun. destruct (JS.truthy (JS.trim (category (page w)))).
    + simpl negb. cbv iota.
      destruct (mounted w) eqn:Hm.
      * rewrite !setState_mounted by solve_mounted; by simpl.
      * rewrite !setState_unmounted by solve_mounted; by simpl.
    + by rewrite andb_false_r.
  - unfold handleRun_then.
    destruct (mounted w) eqn:Hm.
    + rewrite !setState_mounted by solve_mounted; by simpl.
    + rewrite !setState_unmounted by solve_mounted; by simpl.
  - apply remoteLogs_apply_status.
  - apply localLogs_apply_status.
Qed.

(** *** The max-total field *)

Lemma max_total_of_cases s :
  max_total_of s = match JS.parseInt10 s with
                   | JS.Fin z => if 0 <? z then JS.Fin z else JS.Fin 10
                   | _ => JS.Fin 10
                   end.
Proof.
  unfold max_total_of. destruct (JS.parseInt10 s) as [|neg|z]; simpl; try done.
Qed.

(** A numeral of a positive integer below [2^53] is sent as that integer. *)
Lemma max_total_of_decimal ds rest :
  ds <> [] -> Forall JS.is_digit ds -> JS.starts_with_digit rest = false ->
  0 < JS.decimal_value ds < 2 ^ 53 ->
  max_total_of (String.append (JS.digit_string ds) rest) = JS.Fin (JS.decimal_value ds).
Proof.
  intros Hne Hds Hrest [Hpos Hlt]. rewrite max_total_of_cases.
  rewrite (JSProps.parseInt10_decimal ds rest Hne Hds Hrest).
  unfold JS.Number_of_Z. rewrite Z.abs_eq by lia.
  apply Z.ltb_lt in Hlt. rewrite Hlt.
  apply Z.ltb_lt in Hpos. by rewrite Hpos.
Qed.

(** C8.  The [max_total] of every request [handleRun] sends is a positive
    integer: the integer [parseInt(maxTotal, 10)] reads when that is finite
    and greater than 0, and 10 in every other case - nothing to read (empty,
    not a number), zero, negative, infinite. *)
Theorem max_total_positive_or_default (s : string) (w : World) :
  (exists z, max_total_of s = JS.Fin z /\ 0 < z)
  /\ max_total_of s = match JS.parseInt10 s with
                      | JS.Fin z => if 0 <? z then JS.Fin z else JS.Fin 10
                      | _ => JS.Fin 10
                      end
  /\ Api.max_total (build_request (page w)) = Some (max_total_of (maxTotal (page w)))
  /\ (if JS.truthy (JS.trim (category (page w)))
      then exists later,
             calls (handleRun t w)
             = calls w ++ (now w, Api.osukaApi_run (build_request (page w))) :: later
      else calls (handleRun t w) = calls w)
  /\ max_total_of "" = JS.Fin 10
  /\ max_total_of "abc" = JS.Fin 10
  /\ max_total_of "0" = JS.Fin 10
  /\ max_total_of "-5" = JS.Fin 10
  /\ max_total_of "25" = JS.Fin 25
  /\ max_total_of " 7 items" = JS.Fin 7.
Proof.
  split_and!; try done.
  - rewrite max_total_of_cases. destruct (JS.parseInt10 s) as [|neg|z].
    + by exists 10.
    + by exists 10.
    + destruct (0 <? z) eqn:E; [|by exists 10].
      exists z. split; [done|]. by apply Z.ltb_lt.
  - apply max_total_of_cases.
  - unfold handleRun. destruct (JS.truthy (JS.trim (category (page w)))); [|done].
    simpl negb. cbv iota. exists []. simpl.
    by rewrite !calls_setState, !now_setState.
Qed.

End Effect.

(** *** The properties on the sample worlds *)

Import Sample.

Ltac by_eval := vm_compute; reflexivity.

Lemma polling_r1_reachable : reachable en polling_r1.
Proof.
  exists 0, [Edit (Category "shoes"); Click; RunResolved (Api.mkRunStart "r1"); Render].
  by_eval.
Qed.

Lemma polling_r1_ticked_reachable : reachable en polling_r1_ticked.
Proof.
  exists 0, [Edit (Category "shoes"); Click; RunResolved (Api.mkRunStart "r1"); Render;
             Elapse 2000; Tick 0%nat].
  by_eval.
Qed.

(** Session 0 has two status requests in flight; the first answer completes
    the run and React re-renders; the second request fails afterwards. *)
Lemma terminal_status_is_final_after_cleanup_witness :
  (is_cancelled 0 polling_r1_ticked = false /\ terminal st_completed = true)
  /\ let w2 := step en (step en polling_r1_ticked (StatusResolved 0 st_completed))
                 Render in
     page (run en w2 [StatusRejected 0 (ErrorObject "Network Error"); Elapse 2000;
                      Tick 0; Render])
     = page w2.
Proof.
  split; [by vm_compute|].
  refine (proj1 (proj2 (proj2 (proj2 (proj2 (proj2 (proj2 (proj2
    (terminal_status_is_final_after_cleanup en polling_r1_ticked 0%nat st_completed
       [StatusRejected 0%nat (ErrorObject "Network Error"); Elapse 2000; Tick 0%nat;
        Render] _ _ _ _ _))))))))).
  - apply polling_r1_ticked_reachable.
  - by_eval.
  - vm_compute. repeat constructor.
  - by_eval.
  - repeat constructor.
Defined.

(** C1, as claimed, fails before React has re-rendered.  Session 0 has two
    status requests in flight.  The answer to the first completes the run;
    the session is still running, and when the second request fails before
    the re-render, the completed run becomes failed and its result is lost:
    a second terminal transition.  A tick that is due before the re-render
    sends a further status request. *)
Lemma late_answer_overwrites_terminal_status :
  let w1 := step en polling_r1_ticked (StatusResolved 0 st_completed) in
  let w2 := step en w1 (StatusRejected 0 (ErrorObject "Network Error")) in
  terminal st_completed = true
  /\ status_of (page w1) = completed
  /\ runId (page w1) = None
  /\ is_cancelled 0 w1 = false
  /\ status_of (page w2) = failed
  /\ response (runState (page w2)) = None
  /\ page w2 <> page w1
  /\ statuses en polling_r1_ticked
       [StatusResolved 0 st_completed; StatusRejected 0 (ErrorObject "Network Error")]
     = [polling; completed; failed]
  /\ terminal_transitions
       (statuses en polling_r1_ticked
          [StatusResolved 0 st_completed; StatusRejected 0 (ErrorObject "Network Error")])
     = 2%nat
  /\ status_of (page (step en w1 (StatusResolved 0 st_failed))) = failed
  /\ calls (run en w1 [Elapse 2000; Tick 0])
     = calls w1 ++ [(4000, Api.osukaApi_status "r1")].
Proof.
  split_and!; try by_eval.
  intros H. apply (f_equal status_of) in H. vm_compute in H. discriminate.
Qed.

(** The component was unmounted while the first status request was in
    flight; the answer arrives afterwards. *)
Lemma cancelled_session_discards_response_witness :
  is_cancelled 0 left_r1 = true
  /\ page (step en left_r1 (StatusResolved 0 st_completed)) = page left_r1.
Proof.
  split; [by_eval|].
  refine (proj1 (proj2 (proj2 (proj2
    (cancelled_session_discards_response en left_r1 0%nat (inl st_completed) _ _ _))))).
  - exists 0, [Edit (Category "shoes"); Click; RunResolved (Api.mkRunStart "r1");
               Render; Unmount]. by_eval.
  - by_eval.
  - vm_compute. repeat constructor.
Defined.

(** Three clicks in a row on the filled form: one submission. *)
Lemma run_button_ignored_while_submitting_witness :
  loading (page form_filled) = false
  /\ count_runs (calls (run en (step en form_filled Click)
                          [Click; Edit (MaxTotal "5"); Click; Elapse 10]))
     = 1%nat.
Proof.
  split; [by_eval|].
  refine (proj2 (proj2 (proj2 (proj2
    (run_button_ignored_while_submitting en form_filled
       [Edit (MaxTotal "5"); Click; Elapse 10] _ _ _ _ _))))).
  - exists 0, [Edit (Category "shoes")]. by_eval.
  - by_eval.
  - by_eval.
  - by_eval.
  - repeat constructor.
Defined.

(** The first status request fails with a network error; React re-renders,
    and the interval that would have fired at 2000 ms is gone. *)
Lemma poll_transport_error_fails_run_witness :
  is_cancelled 0 polling_r1 = false
  /\ let w' := step en polling_r1 (StatusRejected 0 (ErrorObject "Network Error")) in
     calls (run en (step en w' Render) [Elapse 2000; Tick 0]) = calls polling_r1.
Proof.
  split; [by_eval|].
  refine (proj1 (proj2 (proj2 (proj2 (proj2 (proj2 (proj2 (proj2 (proj2 (proj2 (proj2
    (poll_transport_error_fails_run en polling_r1 0%nat (ErrorObject "Network Error")
       [Elapse 2000; Tick 0%nat] _ _ _ _)))))))))))).
  - apply polling_r1_reachable.
  - by_eval.
  - vm_compute. repeat constructor.
  - repeat constructor.
Defined.

(** C4, as claimed, fails before React has re-rendered.  The first status
    request is rejected at the very time the interval is due: the run is
    failed and [runId] is cleared, but the session still runs, and the tick
    that comes before the re-render issues a further status request in that
    session. *)
Lemma tick_before_cleanup_fetches_again :
  let w := step en polling_r1 (Elapse 2000) in
  let w' := step en w (StatusRejected 0 (ErrorObject "Network Error")) in
  is_cancelled 0 w = false
  /\ status_of (page w') = failed
  /\ runId (page w') = None
  /\ is_cancelled 0 w' = false
  /\ calls (step en w' (Tick 0)) = calls w' ++ [(2000, Api.osukaApi_status "r1")]
  /\ calls (step en w' (Tick 0)) <> calls w'.
Proof.
  split_and!; try by_eval.
  intros H. apply (f_equal (fun l => length l)) in H. vm_compute in H. discriminate.
Qed.

(** A session started at time 0 that ticked twice: requests at 0, 2000, 4000. *)
Lemma first_check_immediate_then_every_2000ms_witness :
  runId (page got_r1) = Some "r1"%string
  /\ calls (run en (effect_body got_r1)
              [Tick 0; Elapse 500; StatusResolved 0 st_running; Render; Tick 0])
     = calls got_r1
       ++ [(0, Api.osukaApi_status "r1"); (2000, Api.osukaApi_status "r1");
           (4000, Api.osukaApi_status "r1")].
Proof.
  split; [by_eval|].
  refine (proj2 (proj2 (proj2 (proj2
    (first_check_immediate_then_every_2000ms en got_r1 "r1"
       [Tick 0%nat; Elapse 500; StatusResolved 0 st_running; Render; Tick 0%nat]
       _ _ _))))).
  - by_eval.
  - by_eval.
  - repeat constructor.
Defined.

(** The backend answers with the status "paused". *)
Lemma unrecognized_status_continues_polling_witness :
  Api.status st_paused <> "completed"%string
  /\ runStatus (page (step en polling_r1 (StatusResolved 0 st_paused))) = Some st_paused.
Proof.
  split; [done|].
  refine (proj1
    (unrecognized_status_continues_polling en polling_r1 0%nat st_paused _ _ _ _ _)).
  - apply polling_r1_reachable.
  - by_eval.
  - vm_compute. repeat constructor.
  - done.
  - done.
Defined.

(** The backend answers "completed" without a result. *)
Lemma completed_without_result_continues_polling_witness :
  Api.result st_completed_bare = None
  /\ runState (page (step en polling_r1 (StatusResolved 0 st_completed_bare)))
     = runState (page polling_r1).
Proof.
  split; [done|].
  refine (proj1
    (completed_without_result_continues_polling en polling_r1 0%nat st_completed_bare
       _ _ _ _ _)).
  - apply polling_r1_reachable.
  - by_eval.
  - vm_compute. repeat constructor.
  - done.
  - done.
Defined.

(** The two end-to-end runs of the design: a run that completes after one
    "running" answer, and a run whose first answer is a failure. *)
Example happy_path :
  let w := run en (mount 0)
             [Edit (Category "shoes"); Click; RunResolved (Api.mkRunStart "r1"); Render;
              StatusResolved 0 st_running; Elapse 2000; Tick 0;
              StatusResolved 0 st_completed; Render; Elapse 2000; Tick 0] in
  status_of (page w) = completed
  /\ response (runState (page w)) = Some a_result
  /\ displayedLogs (page w)
     = ["Starting run"; "Request sent"; "Response received"; "queued"; "done"]%string
  /\ List.map snd (calls w)
     = [Api.osukaApi_run (build_request (page form_filled)); Api.osukaApi_status "r1";
        Api.osukaApi_status "r1"]
  /\ status_times (calls w) = [0; 2000].
Proof. vm_compute. by split_and!. Qed.

Example failure_path :
  let w := run en polling_r1
             [StatusResolved 0 st_failed; Render; Elapse 2000; Tick 0] in
  status_of (page w) = failed
  /\ error (runState (page w)) = Some "no products found"%string
  /\ status_times (calls w) = [0].
Proof. vm_compute. by split_and!. Qed.

(** C3, as claimed, fails for [handleRun] itself: called again while the
    first submission is pending and [loading] is set, it submits again. *)
Lemma handleRun_reentrant_submits_twice :
  let w1 := handleRun en form_filled in
  loading (page w1) = true
  /\ inflight w1 = [PendingRun]
  /\ count_runs (calls w1) = 1%nat
  /\ count_runs (calls (handleRun en w1)) = 2%nat
  /\ count_runs (calls (handleRun en w1)) <> 1%nat.
Proof. vm_compute. by split_and!. Qed.

End PageProps.

(** ** More about the discovery page *)

Module PageMoreProps.
Import Page PageMore PageProps.

Lemma trimStart_all_white s : all_white s = true -> JS.trimStart s = EmptyString.
Proof.
  induction s as [|c s IH]; [done|]. simpl.
  intros H. apply andb_true_iff in H as [-> H]. by apply IH.
Qed.

Lemma trimStart_not_all_white s :
  all_white s = false ->
  exists c r, JS.trimStart s = String c r /\ JS.isWhiteSpace c = false.
Proof.
  induction s as [|c s IH]; [done|]. simpl.
  destruct (JS.isWhiteSpace c) eqn:E; simpl; [exact IH|]. intros _. by exists c, s.
Qed.

Lemma trimEnd_keeps_first c r :
  JS.isWhiteSpace c = false ->
  exists r', JS.trimEnd (String c r) = String c r'.
Proof.
  intros Hc. simpl. destruct (JS.trimEnd r); [|by eexists].
  rewrite Hc. by eexists.
Qed.


Lemma trimEnd_first s c :
  first_char s = Some c -> JS.isWhiteSpace c = false ->
  first_char (JS.trimEnd s) = Some c.
Proof.
  destruct s as [|a s]; [done|]. simpl. intros [= ->] Hc.
  destruct (JS.trimEnd s); [by rewrite Hc|done].
Qed.




(** [trim] is empty exactly on the strings of white space. *)
Lemma truthy_trim s : JS.truthy (JS.trim s) = negb (all_white s).
Proof.
  unfold JS.trim. destruct (all_white s) eqn:E.
  - by rewrite trimStart_all_white.
  - destruct (trimStart_not_all_white s E) as (c & r & -> & Hc).
    destruct (trimEnd_keeps_first c r Hc) as [r' ->]. done.
Qed.

(** *** Numerals in the max-total field *)

Lemma trimStart_app_white ws s :
  all_white ws = true -> JS.trimStart (String.append ws s) = JS.trimStart s.
Proof.
  induction ws as [|c ws IH]; [done|]. simpl. intros H.
  apply andb_true_iff in H as [-> H]. by apply IH.
Qed.

Lemma parseInt10_app_white ws s :
  all_white ws = true -> JS.parseInt10 (String.append ws s) = JS.parseInt10 s.
Proof. intros H. unfold JS.parseInt10. by rewrite trimStart_app_white. Qed.

Lemma decimal_value_nonneg ds : Forall JS.is_digit ds -> 0 <= JS.decimal_value ds.
Proof.
  intros Hds. unfold JS.decimal_value.
  assert (H : forall acc, 0 <= acc -> 0 <= fold_left (fun a d => 10 * a + d) ds acc).
  { induction Hds as [|d ds [Hd _] _ IH]; intros acc Hacc; [done|].
    simpl. apply IH. lia. }
  by apply H.
Qed.

Lemma parseInt10_signed (sign : ascii) ds rest :
  sign = "-"%char \/ sign = "+"%char ->
  ds <> [] -> Forall JS.is_digit ds -> JS.starts_with_digit rest = false ->
  JS.parseInt10 (String sign (String.append (JS.digit_string ds) rest))
  = JS.Number_of_Z ((if Ascii.eqb sign "-" then -1 else 1) * JS.decimal_value ds).
Proof.
  intros Hs Hne Hds Hrest.
  pose proof (JSProps.digits_digit_string ds false 0 rest Hds Hrest) as Hdig.
  destruct ds as [|d ds]; [done|].
  unfold JS.parseInt10. destruct Hs as [-> | ->]; simpl JS.trimStart; cbv iota beta.
  - change (JS.isWhiteSpace "-") with false. cbv iota.
    change (String (JS.digitChar d) (String.append (JS.digit_string ds) rest))
      with (String.append (JS.digit_string (d :: ds)) rest).
    by rewrite Hdig.
  - change (JS.isWhiteSpace "+") with false. cbv iota.
    change (String (JS.digitChar d) (String.append (JS.digit_string ds) rest))
      with (String.append (JS.digit_string (d :: ds)) rest).
    by rewrite Hdig.
Qed.

(** A number that is not positive fails the test of line 103. *)
Lemma Number_of_Z_nonpos z :
  z <= 0 -> JS.isFinite (JS.Number_of_Z z) && JS.gt0 (JS.Number_of_Z z) = false.
Proof.
  intros Hz. unfold JS.Number_of_Z. cbv zeta.
  destruct (Z.abs z <? 2 ^ 53) eqn:E.
  - simpl. apply Z.ltb_ge. lia.
  - set (e := Z.log2 (Z.abs z) - 52).
    match goal with |- context [if ?c then ?a + 1 else ?a] =>
      set (q' := if c then a + 1 else a) end.
    destruct (2 ^ 1024 <=? q' * 2 ^ e) eqn:E2; [done|].
    unfold JS.isFinite, JS.gt0. rewrite andb_true_l.
    apply Z.ltb_ge.
    assert (0 <= Z.abs z / 2 ^ e).
    { apply Z_div_nonneg_nonneg; [lia|]. apply Z.pow_nonneg. lia. }
    assert (0 <= q') by (unfold q'; destruct (_ || _); lia).
    assert (0 <= 2 ^ e) by (apply Z.pow_nonneg; lia).
    assert (Z.sgn z <= 0) by lia. nia.
Qed.

(** A number from [2^1024] on is infinite. *)
Lemma Number_of_Z_huge z : 2 ^ 1024 <= z -> JS.Number_of_Z z = JS.Infinity false.
Proof.
  intros Hz.
  assert (H53 : 2 ^ 53 <= 2 ^ 1024) by (apply Z.pow_le_mono_r; lia).
  assert (Hpos : 0 < z) by (pose proof (Z.pow_pos_nonneg 2 53); lia).
  unfold JS.Number_of_Z. rewrite (Z.abs_eq z) by lia.
  assert ((z <? 2 ^ 53) = false) as -> by (apply Z.ltb_ge; lia).
  set (L := Z.log2 z). set (e := L - 52).
  assert (HL : 1024 <= L) by (apply Z.log2_le_pow2; [done|lia]).
  assert (HLz : 2 ^ L <= z) by (apply Z.log2_spec; done).
  assert (He : 0 <= e) by (unfold e; lia).
  assert (Hpe : 0 < 2 ^ e) by (apply Z.pow_pos_nonneg; lia).
  assert (Hq : 2 ^ 52 <= z / 2 ^ e).
  { replace (2 ^ 52) with (2 ^ L / 2 ^ e).
    - apply Z.div_le_mono; lia.
    - unfold e. rewrite <- Z.pow_sub_r by lia. f_equal. lia. }
  cbv zeta. fold L. fold e.
  match goal with |- context [if ?c then ?a + 1 else ?a] =>
    set (q' := if c then a + 1 else a) end.
  assert (Hq' : z / 2 ^ e <= q') by (unfold q'; destruct (_ || _); lia).
  assert (Hv : 2 ^ 1024 <= q' * 2 ^ e).
  { assert (2 ^ L = 2 ^ 52 * 2 ^ e).
    { unfold e. rewrite <- Z.pow_add_r by lia. f_equal. lia. }
    assert (2 ^ 1024 <= 2 ^ L) by (apply Z.pow_le_mono_r; lia).
    assert (2 ^ 52 * 2 ^ e <= q' * 2 ^ e) by (apply Z.mul_le_mono_nonneg_r; lia).
    lia. }
  apply Z.leb_le in Hv. rewrite Hv.
  assert ((z <? 0) = false) as -> by (apply Z.ltb_ge; lia). done.
Qed.

(** X11.  How numerals in the max-total field are sent.  For a numeral -
    after any white space, before anything that is not a digit - denoting
    [v]: with a minus sign 10 is sent whatever [v]; for [v = 0] 10 is sent;
    for [0 < v < 2^53] [v] itself is sent, with or without a plus sign; and
    from [2^1024] on, where [parseInt] gives [Infinity], 10 is sent. *)
Theorem max_total_of_numeral ws ds rest :
  all_white ws = true -> ds <> [] -> Forall JS.is_digit ds ->
  JS.starts_with_digit rest = false ->
  let v := JS.decimal_value ds in
  let numeral := String.append (JS.digit_string ds) rest in
  max_total_of (String.append ws (String "-" numeral)) = JS.Fin 10
  /\ (v = 0 -> max_total_of (String.append ws numeral) = JS.Fin 10)
  /\ (0 < v < 2 ^ 53 ->
      max_total_of (String.append ws numeral) = JS.Fin v
      /\ max_total_of (String.append ws (String "+" numeral)) = JS.Fin v)
  /\ (2 ^ 1024 <= v -> max_total_of (String.append ws numeral) = JS.Fin 10).
Proof.
  intros Hws Hne Hds Hrest v numeral. subst numeral.
  pose proof (decimal_value_nonneg ds Hds) as Hv. fold v in Hv.
  assert (Hplain : JS.parseInt10 (String.append ws (String.append (JS.digit_string ds) rest)) = JS.Number_of_Z v).
  { rewrite parseInt10_app_white by done.
    by apply JSProps.parseInt10_decimal. }
  assert (Hsmall : 0 < v < 2 ^ 53 -> JS.Number_of_Z v = JS.Fin v).
  { intros [H0 H1]. unfold JS.Number_of_Z. rewrite Z.abs_eq by lia.
    apply Z.ltb_lt in H1. by rewrite H1. }
  split_and!.
  - unfold max_total_of. rewrite parseInt10_app_white by done.
    rewrite (parseInt10_signed "-" ds rest) by auto. simpl Ascii.eqb. cbv iota.
    rewrite Number_of_Z_nonpos; [done|]. fold v. lia.
  - intros H0. unfold max_total_of. rewrite Hplain, H0. done.
  - intros Hr. split.
    + unfold max_total_of. rewrite Hplain, (Hsmall Hr). simpl.
      destruct Hr as [Hr _]. apply Z.ltb_lt in Hr. by rewrite Hr.
    + unfold max_total_of. rewrite parseInt10_app_white by done.
      rewrite (parseInt10_signed "+" ds rest) by auto. simpl Ascii.eqb. cbv iota.
      fold v. rewrite Z.mul_1_l, (Hsmall Hr). simpl.
      destruct Hr as [Hr _]. apply Z.ltb_lt in Hr. by rewrite Hr.
  - intros Hh. unfold max_total_of. by rewrite Hplain, (Number_of_Z_huge v Hh).
Qed.

Ltac mounted_tac :=
  repeat (rewrite ?mounted_setState; simpl); done.

Section More.

Variable t : Translations.

(** What a valid [handleRun] logs: its request. *)
Lemma handleRun_calls w :
  JS.truthy (JS.trim (category (page w))) = true ->
  exists later,
    calls (handleRun t w)
    = calls w ++ (now w, Api.osukaApi_run (build_request (page w))) :: later.
Proof.
  intros Hc. unfold handleRun. rewrite Hc. simpl negb. cbv iota.
  exists []. simpl. by rewrite !calls_setState, !now_setState.
Qed.

(** X1.  The validation of [handleRun]: on the enabled button, a category
    that is empty or all white space is rejected - the click only shows the
    "required" toast, no request is sent and the component state is as
    before - and every other category is submitted, trimmed. *)
Theorem blank_category_is_rejected w :
  mounted w = true -> loading (page w) = false ->
  (all_white (category (page w)) = true ->
     step t w Click = toast (toast_error (common_required t)) w)
  /\ (all_white (category (page w)) = false ->
       exists later,
         calls (step t w Click)
         = calls w ++ (now w, Api.osukaApi_run (build_request (page w))) :: later
         /\ Api.category (build_request (page w)) = JS.trim (category (page w))
         /\ JS.truthy (JS.trim (category (page w))) = true).
Proof.
  intros Hm Hl. simpl. rewrite Hm, Hl. simpl. split; intros Hw.
  - unfold handleRun. by rewrite truthy_trim, Hw.
  - assert (Htr : JS.truthy (JS.trim (category (page w))) = true)
      by by rewrite truthy_trim, Hw.
    destruct (handleRun_calls w Htr) as [later H]. by exists later.
Qed.

(** X2.  A submission that fails never starts polling: when [osukaApi.run]
    rejects, the error message is stored and shown in a toast, [loading] is
    cleared, and [runId], the sessions and the request log are as before. *)
Theorem failed_submission_starts_no_polling w err :
  reachable t w -> mounted w = true -> PendingRun ∈ inflight w ->
  let w' := step t w (RunRejected err) in
  runState (page w') = mkRunState None (Some (message_of t err))
  /\ status_of (page w') = failed
  /\ loading (page w') = false
  /\ runId (page w') = runId (page w)
  /\ sessions w' = sessions w
  /\ effect w' = effect w
  /\ calls w' = calls w
  /\ toasts w' = toasts w ++ [toast_error (message_of t err)].
Proof.
  intros Hr Hm Hin.
  destruct (settle_elem _ _ Hin) as [l Hl]. simpl. rewrite Hl.
  unfold handleRun_catch. by rewrite !setState_mounted by mounted_tac.
Qed.

(** X3.  When the submission resolves with a non-empty run identifier,
    [runId] is that identifier and [loading] is cleared at once; polling
    starts when React re-renders, provided the identifier is not the one
    the effect last ran with: a new session is then the only one that is not
    cancelled, its interval is armed 2000 ms ahead and its first status
    request is logged at the time of the re-render - no time passes between
    the two events. *)
Theorem resolved_submission_starts_the_only_session w r :
  reachable t w -> mounted w = true -> PendingRun ∈ inflight w ->
  JS.truthy (Api.start_run_id r) = true ->
  effectDep w <> Some (Api.start_run_id r) ->
  let w1 := step t w (RunResolved r) in
  let w' := step t w1 Render in
  let sid := length (sessions w) in
  (runId (page w1) = Some (Api.start_run_id r)
   /\ loading (page w1) = false
   /\ calls w1 = calls w
   /\ sessions w1 = sessions w)
  /\ runId (page w') = Some (Api.start_run_id r)
  /\ loading (page w') = false
  /\ calls w' = calls w ++ [(now w, Api.osukaApi_status (Api.start_run_id r))]
  /\ sessions w' !! sid
     = Some (mkSession (Api.start_run_id r) false (Some (mkTimer 2000 (now w + 2000))))
  /\ is_cancelled sid w' = false
  /\ (forall sid', sid' <> sid -> is_cancelled sid' w' = true).
Proof.
  intros Hr Hm Hin Htr Hne w1 w' sid.
  destruct (submission_starts_polling t w r Hr Hm Hin Htr Hne)
    as (Hc & Hrid & He & Hs & Hn).
  fold w1 in Hc, Hrid, He, Hs, Hn. fold w' sid in Hc, Hrid, He, Hs, Hn.
  pose proof (reachable_wf t _
                (reachable_step t _ Render (reachable_step t w (RunResolved r) Hr)))
    as [H1 _].
  fold w1 in H1. fold w' in H1.
  assert (Hw1 : page w1 = setLoading false
                  (setLocalLogs (fun prev => prev ++ [osuka_logsResponseReceived t])
                     (setRunId (Some (Api.start_run_id r)) (page w)))
                /\ calls w1 = calls w /\ sessions w1 = sessions w).
  { unfold w1. simpl. destruct (settle_elem _ _ Hin) as [l ->].
    unfold handleRun_then. by rewrite !setState_mounted by mounted_tac. }
  destruct Hw1 as (Hp1 & Hc1 & Hs1).
  assert (Hp' : page w' = page w1) by apply page_render.
  split_and!; try done.
  - by rewrite Hp1.
  - by rewrite Hp1.
  - by rewrite Hp', Hp1.
  - unfold is_cancelled. by rewrite Hs.
  - intros sid' Hne'. unfold is_cancelled.
    destruct (sessions w' !! sid') as [s|] eqn:E; [|done].
    apply (H1 sid' s E). rewrite He. congruence.
Qed.

(** X4.  At most one polling session is live: in every reachable world two
    sessions that are not cancelled are the same session; it is the session
    of the effect, its interval is armed, the component is mounted, and it
    polls the run identifier the effect last ran with - which is the
    [runId] of the state unless a re-render is due.  Right after a re-render
    a session that is live polls the [runId] of the state. *)
Theorem at_most_one_live_session w s1 s2 :
  reachable t w -> is_cancelled s1 w = false -> is_cancelled s2 w = false ->
  s1 = s2
  /\ mounted w = true
  /\ effect w = Some s1
  /\ (exists s, sessions w !! s1 = Some s /\ effectDep w = Some (s_runId s)
                /\ JS.truthy (s_runId s) = true /\ is_Some (interval s)
                /\ (settled w -> runId (page w) = Some (s_runId s)))
  /\ (forall sid, is_cancelled sid (step t w Render) = false ->
        exists s, sessions (step t w Render) !! sid = Some s
                  /\ runId (page w) = Some (s_runId s)).
Proof.
  intros Hr H1 H2. pose proof (reachable_wf t w Hr) as Hwf.
  destruct (live_session w s1 Hwf H1) as (He1 & Hm & s & Hs & _ & Hi & Hrid & Htr).
  destruct (live_session w s2 Hwf H2) as (He2 & _).
  split_and!; try done.
  - congruence.
  - exists s. split_and!; try done. intros Hse. by rewrite <- (Hse Hm).
  - intros sid Hc.
    pose proof (reachable_wf t _ (reachable_step t w Render Hr)) as Hwf'.
    destruct (live_session _ sid Hwf' Hc) as (_ & Hm' & s' & Hs' & _ & _ & Hd' & _).
    exists s'. split; [done|].
    rewrite <- Hd'. simpl. rewrite (render_settled w Hm'). by rewrite page_render.
Qed.

(** *** Submissions never overlap *)

Lemma pending_runs_app l l' :
  pending_runs (l ++ l') = (pending_runs l + pending_runs l')%nat.
Proof. unfold pending_runs. by rewrite List.filter_app, length_app. Qed.

Lemma settle_run_Some l l' :
  settle PendingRun l = Some l' -> pending_runs l = S (pending_runs l').
Proof.
  revert l'. induction l as [|x l IH]; intros l'; [done|]. simpl.
  destruct x as [|sid]; simpl.
  - by intros [= <-].
  - destruct (settle PendingRun l) as [r|]; [|done]. intros [= <-].
    unfold pending_runs in *. simpl. by apply IH.
Qed.

Lemma settle_status_Some sid l l' :
  settle (PendingStatus sid) l = Some l' -> pending_runs l' = pending_runs l.
Proof.
  revert l'. induction l as [|x l IH]; intros l'; [done|]. simpl.
  destruct x as [|sid']; simpl.
  - destruct (settle (PendingStatus sid) l) as [r|]; [|done]. intros [= <-].
    unfold pending_runs in *. simpl. f_equal. by apply IH.
  - destruct (sid =? sid')%nat.
    + by intros [= <-].
    + destruct (settle (PendingStatus sid) l) as [r|]; [|done]. intros [= <-].
      unfold pending_runs in *. simpl. by apply IH.
Qed.

Lemma inflight_setState f w : inflight (setState f w) = inflight w.
Proof. unfold setState. by destruct (mounted w). Qed.

Lemma pending_runs_poll sid w :
  pending_runs (inflight (poll sid w)) = pending_runs (inflight w).
Proof.
  unfold poll. destruct (sessions w !! sid); [|done]. simpl.
  rewrite pending_runs_app. unfold pending_runs at 2. simpl. lia.
Qed.

Lemma mounted_poll sid w : mounted (poll sid w) = mounted w.
Proof. unfold poll. by destruct (sessions w !! sid). Qed.

Lemma pending_runs_render w :
  pending_runs (inflight (render w)) = pending_runs (inflight w).
Proof.
  unfold render. destruct (negb (mounted w) || _); [done|].
  unfold effect_body.
  assert (Hi : inflight (match effect w with Some sid => cleanup sid w | None => w end)
               = inflight w) by by destruct (effect w).
  destruct (runId (page _)) as [rid|]; [destruct (JS.truthy rid)|];
    rewrite ?pending_runs_poll; simpl; by rewrite Hi.
Qed.

Lemma render_unmounted w : mounted w = false -> render w = w.
Proof. intros H. unfold render. by rewrite H. Qed.

Lemma overlap_step w e :
  ((pending_runs (inflight w) <= 1)%nat
   /\ (mounted w = true ->
       loading (page w) = (pending_runs (inflight w) =? 1)%nat)) ->
  (pending_runs (inflight (step t w e)) <= 1)%nat
  /\ (mounted (step t w e) = true ->
      loading (page (step t w e)) = (pending_runs (inflight (step t w e)) =? 1)%nat).
Proof.
  intros [Hle Hload].
  destruct e as [i| |r|err|sid|sid st|sid err|dt| |]; simpl.
  - rewrite inflight_setState, mounted_setState, page_setState.
    split; [done|]. intros Hm. rewrite Hm, loading_edit. by apply Hload.
  - destruct (mounted w && negb (loading (page w))) eqn:E; [|by split].
    apply andb_true_iff in E as [Hm Hl]. apply negb_true_iff in Hl.
    unfold handleRun.
    destruct (JS.truthy (JS.trim (category (page w)))); simpl; [|by split].
    specialize (Hload Hm). rewrite Hl in Hload.
    symmetry in Hload. apply Nat.eqb_neq in Hload.
    rewrite !setState_mounted by mounted_tac. simpl.
    rewrite pending_runs_app. unfold pending_runs at 2 4. simpl.
    assert (pending_runs (inflight w) = 0)%nat as -> by lia.
    split; [simpl; lia|done].
  - destruct (settle PendingRun (inflight w)) as [l|] eqn:Hs; [|by split].
    apply settle_run_Some in Hs. unfold handleRun_then.
    rewrite inflight_setState, mounted_setState, page_setState. simpl.
    rewrite !inflight_setState, !mounted_setState. simpl.
    assert (pending_runs l = 0)%nat as -> by lia.
    split; [lia|]. by intros ->.
  - destruct (settle PendingRun (inflight w)) as [l|] eqn:Hs; [|by split].
    apply settle_run_Some in Hs. unfold handleRun_catch.
    rewrite inflight_setState, mounted_setState, page_setState. simpl.
    rewrite !inflight_setState, !mounted_setState. simpl.
    assert (pending_runs l = 0)%nat as -> by lia.
    split; [lia|]. by intros ->.
  - unfold tick. destruct (sessions w !! sid) as [s|]; [|by split].
    destruct (interval s); [|by split].
    rewrite pending_runs_poll, mounted_poll, page_poll. by split.
  - destruct (settle (PendingStatus sid) (inflight w)) as [l|] eqn:Hs; [|by split].
    apply settle_status_Some in Hs. unfold poll_then.
    destruct (is_cancelled sid (with_inflight l w)); simpl; [by rewrite Hs|].
    rewrite mounted_setState, inflight_setState, page_setState.
    simpl. rewrite Hs. split; [done|]. intros Hm. rewrite Hm, loading_apply_status.
    by apply Hload.
  - destruct (settle (PendingStatus sid) (inflight w)) as [l|] eqn:Hs; [|by split].
    apply settle_status_Some in Hs. unfold poll_catch.
    destruct (is_cancelled sid (with_inflight l w)); simpl; [by rewrite Hs|].
    rewrite mounted_setState, inflight_setState, page_setState.
    simpl. rewrite Hs. split; [done|]. intros Hm. rewrite Hm. simpl. by apply Hload.
  - destruct (may_elapse dt w); by split.
  - by rewrite pending_runs_render, mounted_render, page_render.
  - destruct (mounted w) eqn:Hm; [|split; [done|by rewrite Hm]]. simpl.
    split; [|done]. by destruct (effect w).
Qed.

(** X5.  Submissions never overlap: in every reachable world at most one
    [osukaApi.run] promise is pending, and while the component is mounted
    [loading] is set exactly when one is. *)
Theorem submissions_never_overlap w :
  reachable t w ->
  (pending_runs (inflight w) <= 1)%nat
  /\ (mounted w = true ->
      loading (page w) = (pending_runs (inflight w) =? 1)%nat).
Proof.
  intros (t0 & es & ->). revert es. apply (rev_ind (fun es => _)).
  - simpl. split; [unfold pending_runs; simpl; lia|done].
  - intros e es IH. unfold run in *. rewrite fold_left_app. simpl.
    by apply overlap_step.
Qed.

(** What a rejected status request leaves, for a live session: the error
    at once, and no session running after the re-render. *)
Lemma poll_transport_error_facts w sid err :
  reachable t w -> is_cancelled sid w = false -> PendingStatus sid ∈ inflight w ->
  let w' := step t w (StatusRejected sid err) in
  runState (page w') = mkRunState None (Some (message_of t err))
  /\ page (step t w' Render) = page w'
  /\ stopped (step t w' Render).
Proof.
  intros Hr Hc Hin w'. apply reachable_wf in Hr.
  destruct (settle_elem _ _ Hin) as [l Hl].
  set (f := fun p => setRunId None
                       (setRunState (mkRunState None (Some (message_of t err))) p)).
  assert (Hw' : w' = setState f (with_inflight l w)).
  { unfold w'; simpl. rewrite Hl. unfold poll_catch.
    by rewrite is_cancelled_inflight, Hc. }
  destruct (live_clears (with_inflight l w) sid f)
    as (Hset & Hp & Hst & _); [by apply wf_inflight|done|done|].
  rewrite <- Hw' in Hset, Hp, Hst.
  split_and!; [by rewrite Hset|apply page_render|done].
Qed.

(** *** After the component unmounted *)

Lemma unmounted_step w e :
  mounted w = false -> stopped w ->
  page (step t w e) = page w /\ calls (step t w e) = calls w
  /\ mounted (step t w e) = false /\ sessions (step t w e) = sessions w.
Proof.
  intros Hm Hst.
  destruct e as [i| |r|err|sid|sid st|sid err|dt| |]; simpl.
  - by rewrite setState_unmounted.
  - by rewrite Hm.
  - destruct (settle PendingRun (inflight w)) as [l|]; [|done].
    unfold handleRun_then. by rewrite !setState_unmounted by mounted_tac.
  - destruct (settle PendingRun (inflight w)) as [l|]; [|done].
    unfold handleRun_catch. by rewrite !setState_unmounted by mounted_tac.
  - by rewrite stopped_tick.
  - destruct (settle (PendingStatus sid) (inflight w)) as [l|]; [|done].
    rewrite cancelled_poll_then; [done|]. by apply (stopped_is_cancelled w sid).
  - destruct (settle (PendingStatus sid) (inflight w)) as [l|]; [|done].
    rewrite cancelled_poll_catch; [done|]. by apply (stopped_is_cancelled w sid).
  - by destruct (may_elapse dt w).
  - by rewrite render_unmounted.
  - by rewrite Hm.
Qed.

Lemma unmounted_run w es :
  mounted w = false -> stopped w ->
  page (run t w es) = page w /\ calls (run t w es) = calls w
  /\ mounted (run t w es) = false /\ stopped (run t w es).
Proof.
  revert w. induction es as [|e es IH]; intros w Hm Hst; [done|].
  destruct (unmounted_step w e Hm Hst) as (Hp & Hc & Hm' & Hs).
  simpl. destruct (IH (step t w e) Hm') as (Hp' & Hc' & Hm'' & Hst').
  - by apply (stopped_same_sessions w).
  - split_and!; try done; congruence.
Qed.

(** X6.  Once the component has unmounted, nothing it started acts again:
    whatever events follow - late answers of the submission or of status
    requests, timers, clicks - the component state is as it was at
    unmounting, no further request is sent, and every session stays
    cancelled with its interval cleared. *)
Theorem unmounted_component_is_inert w es :
  reachable t w ->
  let w0 := step t w Unmount in
  page (run t w0 es) = page w
  /\ calls (run t w0 es) = calls w
  /\ mounted (run t w0 es) = false
  /\ stopped (run t w0 es).
Proof.
  intros Hr w0.
  assert (H0 : mounted w0 = false /\ page w0 = page w /\ calls w0 = calls w).
  { unfold w0. simpl. destruct (mounted w) eqn:Hm; [|done]. simpl.
    by destruct (effect w). }
  destruct H0 as (Hm0 & Hp0 & Hc0).
  pose proof (reachable_wf t _ (reachable_step t w Unmount Hr)) as [H1 H2].
  fold w0 in H1, H2.
  assert (Hst : stopped w0).
  { intros sid s Hs. apply (H1 sid s Hs). intros He.
    destruct (H2 sid He) as [Hm _]. congruence. }
  destruct (unmounted_run w0 es Hm0 Hst) as (Hp & Hc & Hm & Hst').
  split_and!; try done; congruence.
Qed.

(** *** What a terminal status stores *)

(** X7.  A terminal status received by the live session stores exactly one
    of result and error: "completed" with a result stores that result and no
    error; "failed" stores no result and the error of the response, or
    [t.common.error] when the response has none or an empty one.  In both
    cases [runStatus] is the response and [runId] is cleared, and polling is
    stopped at the re-render that follows: it changes no state and sends
    nothing, and after it every session is cancelled with its interval
    cleared. *)
Theorem terminal_status_stores_one_outcome w sid st :
  reachable t w -> is_cancelled sid w = false -> PendingStatus sid ∈ inflight w ->
  terminal st = true ->
  let w' := step t w (StatusResolved sid st) in
  let w'' := step t w' Render in
  (forall r, Api.status st = "completed"%string -> Api.result st = Some r ->
     runState (page w') = mkRunState (Some r) None)
  /\ (Api.status st = "failed"%string ->
      runState (page w')
      = mkRunState None
          (Some (match Api.error st with
                 | Some (String c e) => String c e
                 | _ => common_error t
                 end)))
  /\ (is_Some (response (runState (page w'))) <-> error (runState (page w')) = None)
  /\ runStatus (page w') = Some st
  /\ runId (page w') = None
  /\ page w'' = page w'
  /\ calls w'' = calls w
  /\ effect w'' = None
  /\ stopped w''.
Proof.
  intros Hr Hc Hin Hterm w' w''. apply reachable_wf in Hr.
  destruct (settle_elem _ _ Hin) as [l Hl].
  assert (Hw' : w' = setState (apply_status t st) (with_inflight l w)).
  { unfold w'; simpl. rewrite Hl. unfold poll_then.
    by rewrite is_cancelled_inflight, Hc. }
  destruct (live_clears (with_inflight l w) sid (apply_status t st))
    as (Hset & Hp2 & Hst & _ & He & Hcl & _); [by apply wf_inflight|done| |].
  { intros p. by destruct (apply_status_terminal t st p Hterm). }
  rewrite <- Hw' in Hset, Hp2, Hst, He, Hcl.
  change (render w') with w'' in Hp2, Hst, He, Hcl. simpl in Hp2, Hcl.
  assert (Hp : page w' = apply_status t st (page w)) by by rewrite Hset.
  rewrite Hp2, Hp.
  destruct (apply_status_terminal t st (page w) Hterm) as (Hrid & _ & Hrs).
  split_and!; try done.
  - intros r Hs Hres. unfold apply_status. by rewrite Hs, Hres.
  - intros Hs. unfold apply_status. rewrite Hs. simpl.
    unfold JS.or_else. by destruct (Api.error st) as [[|c e]|].
  - unfold terminal in Hterm. unfold apply_status.
    destruct (String.eqb (Api.status st) "completed" && bool_decide (is_Some (Api.result st)))
      eqn:E.
    + apply andb_true_iff in E as [_ E]. apply bool_decide_eq_true in E.
      simpl. by split.
    + simpl in Hterm. rewrite Hterm. simpl. split; [by intros [x Hx]|done].
Qed.

(** *** A new submission while a run is polled *)

(** X8.  [handleRun] does not stop a running poll: a click on a valid form
    while session [sid] is live clears [runState] and [runStatus] but leaves
    [runId] and the sessions as they are, so the session stays live and the
    next answer to one of its status requests is applied to the new state. *)
Theorem submission_keeps_the_old_session w sid st :
  reachable t w -> is_cancelled sid w = false -> PendingStatus sid ∈ inflight w ->
  loading (page w) = false -> all_white (category (page w)) = false ->
  let w' := step t w Click in
  runState (page w') = mkRunState None None
  /\ runStatus (page w') = None
  /\ runId (page w') = runId (page w)
  /\ sessions w' = sessions w
  /\ is_cancelled sid w' = false
  /\ page (step t w' (StatusResolved sid st)) = apply_status t st (page w').
Proof.
  intros Hr Hc Hin Hl Hw w'.
  pose proof (reachable_wf t w Hr) as Hwf.
  destruct (live_session w sid Hwf Hc) as (_ & Hm & _).
  assert (Htr : JS.truthy (JS.trim (category (page w))) = true)
    by by rewrite truthy_trim, Hw.
  assert (Hw' : w' = handleRun t w) by (unfold w'; simpl; by rewrite Hm, Hl).
  rewrite (handleRun_valid t w Hm Htr) in Hw'.
  assert (Hc' : is_cancelled sid w' = false) by by rewrite Hw'.
  split_and!; try by rewrite Hw'.
  assert (Hin' : PendingStatus sid ∈ inflight w').
  { rewrite Hw'. simpl. apply elem_of_app. by left. }
  destruct (settle_elem _ _ Hin') as [l Hl'].
  simpl. rewrite Hl'. unfold poll_then. rewrite is_cancelled_inflight, Hc'.
  rewrite setState_mounted; [done|]. by rewrite Hw'.
Qed.

(** *** A run identifier that is empty *)

Lemma render_falsy w :
  match runId (page w) with Some rid => JS.truthy rid = false | None => True end ->
  calls (render w) = calls w.
Proof.
  intros H. unfold render. destruct (negb (mounted w) || _); [done|].
  unfold effect_body. rewrite page_cleanup_effect.
  destruct (runId (page w)) as [rid|]; [rewrite H|]; by destruct (effect w).
Qed.

(** X9.  A start response with an empty [run_id] starts no polling: [runId]
    becomes the empty string, and at the re-render that follows no status
    request is sent and no session is live - one that was polling an
    earlier run is stopped. *)
Theorem empty_run_id_starts_no_polling w r :
  reachable t w -> mounted w = true -> PendingRun ∈ inflight w ->
  Api.start_run_id r = EmptyString ->
  let w1 := step t w (RunResolved r) in
  let w' := step t w1 Render in
  (runId (page w1) = Some EmptyString /\ calls w1 = calls w)
  /\ runId (page w') = Some EmptyString
  /\ loading (page w') = false
  /\ calls w' = calls w
  /\ effect w' = None
  /\ stopped w'.
Proof.
  intros Hr Hm Hin Hrid w1 w'.
  pose proof (reachable_wf t _
                (reachable_step t _ Render (reachable_step t w (RunResolved r) Hr)))
    as Hwf'.
  fold w1 in Hwf'. fold w' in Hwf'.
  destruct (settle_elem _ _ Hin) as [l Hl].
  assert (Hw1 : w1 = with_page (fun p =>
                   setLoading false
                     (setLocalLogs (fun prev => prev ++ [osuka_logsResponseReceived t])
                        (setRunId (Some EmptyString) p)))
                   (toast (toast_success (common_success t)) (with_inflight l w))).
  { unfold w1. simpl. rewrite Hl. unfold handleRun_then.
    rewrite !setState_mounted by mounted_tac. by rewrite Hrid. }
  assert (Hp : page w' = setLoading false
                 (setLocalLogs (fun prev => prev ++ [osuka_logsResponseReceived t])
                    (setRunId (Some EmptyString) (page w)))).
  { unfold w'. simpl. by rewrite page_render, Hw1. }
  assert (Hmw' : mounted w' = true).
  { unfold w'. simpl. by rewrite mounted_render, Hw1. }
  assert (He : effect w' = None).
  { destruct Hwf' as [_ H2]. destruct (effect w') as [sid|] eqn:E; [|done].
    destruct (H2 sid eq_refl) as (_ & s & _ & _ & _ & Hdep & Htr).
    pose proof (render_settled w1 Hmw') as Hse. fold w' in Hse. simpl in Hse.
    change (render w1) with w' in Hse.
    rewrite Hse, Hp in Hdep. simpl in Hdep.
    injection Hdep as Heq. by rewrite <- Heq in Htr. }
  split_and!; try done; try by rewrite Hp.
  - by rewrite Hw1.
  - by rewrite Hw1.
  - unfold w'. simpl. rewrite render_falsy; by rewrite Hw1.
  - by apply no_effect_stopped.
Qed.

(** *** The fields of the request *)







(** *** What the error card shows *)

(** X20.  What the user sees of a failure of the polling.  A "failed" status
    shows the error card with the error of the response, or with the generic
    message [t.common.error] when the response has no error or an empty one
    (given that the translation of that message is not empty).  A rejected
    status request shows the card with the message of the thrown [Error] -
    but no card at all when that message is empty: the run is then failed
    and, once React has re-rendered, the polling stopped, without anything
    on the page saying so. *)
Theorem error_card_after_failed_poll w sid st err :
  reachable t w -> is_cancelled sid w = false -> PendingStatus sid ∈ inflight w ->
  Api.status st = "failed"%string -> common_error t <> EmptyString ->
  let w1 := step t w (StatusResolved sid st) in
  let w2 := step t w (StatusRejected sid err) in
  error_card (page w1)
  = Some (match Api.error st with
          | Some (String c e) => String c e
          | _ => common_error t
          end)
  /\ error_card (page w2)
     = (match message_of t err with
        | EmptyString => None
        | String c m => Some (String c m)
        end)
  /\ status_of (page w2) = failed
  /\ error_card (page (step t w2 Render)) = error_card (page w2)
  /\ status_of (page (step t w2 Render)) = failed
  /\ stopped (step t w2 Render).
Proof.
  intros Hr Hc Hin Hst Hne w1 w2.
  destruct (poll_transport_error_facts w sid err Hr Hc Hin) as (Hrs & Hp & Hstop).
  fold w2 in Hrs, Hp, Hstop.
  assert (Hf : status_of (page w2) = failed) by (unfold status_of; by rewrite Hrs).
  split_and!; try done; try by rewrite Hp.
  - pose proof (reachable_wf t w Hr) as Hwf.
    destruct (settle_elem _ _ Hin) as [l Hl]. unfold w1. simpl. rewrite Hl.
    unfold poll_then. rewrite is_cancelled_inflight, Hc.
    destruct (live_session w sid Hwf Hc) as (_ & Hm & _).
    rewrite setState_mounted by done. simpl.
    unfold apply_status, error_card. rewrite Hst. simpl.
    unfold JS.or_else. destruct (Api.error st) as [[|c e]|]; simpl; try done.
    + by destruct (common_error t).
    + by destruct (common_error t).
  - unfold error_card. rewrite Hrs. simpl. by destruct (message_of t err).
Qed.

End More.

End PageMoreProps.

(** ** The add-YouTube-source dialog *)

Module YoutubeProps.
Import Youtube.

Lemma matches_lit p : forall c b s k,
  matches (lit c p) b s k
  = match strip_ci (String c p) s with
    | Some s' => k false s'
    | None => false
    end.
Proof.
  induction p as [|c' p IH]; intros c b s k; simpl.
  - destruct s as [|a s]; [done|]. by destruct (Ascii.eqb (canon c) (canon a)).
  - destruct s as [|a s]; [done|].
    destruct (Ascii.eqb (canon c) (canon a)); [|done]. by rewrite IH.
Qed.

Lemma prefix_ci_app p q : forall s,
  prefix_ci (String.append p q) s
  = match strip_ci p s with
    | Some s' => prefix_ci q s'
    | None => false
    end.
Proof.
  induction p as [|a p IH]; intros s; [done|]. simpl.
  destruct s as [|b s]; [done|].
  destruct (Ascii.eqb (canon a) (canon b)); [|done]. by rewrite IH.
Qed.

Lemma matches_host b s :
  matches (Seq (Alt (lit "y" "outube.com") (lit "y" "outu.be")) (Chr "/")) b s
    (fun _ _ => true)
  = host_here s.
Proof.
  unfold host_here.
  change "youtube.com/"%string with (String.append "youtube.com" "/").
  change "youtu.be/"%string with (String.append "youtu.be" "/").
  rewrite !prefix_ci_app.
  change (matches (Seq (Alt (lit "y" "outube.com") (lit "y" "outu.be")) (Chr "/")) b s
            (fun _ _ => true))
    with (matches (lit "y" "outube.com") b s
            (fun b' s' => matches (Chr "/") b' s' (fun _ _ => true))
          || matches (lit "y" "outu.be") b s
               (fun b' s' => matches (Chr "/") b' s' (fun _ _ => true))).
  rewrite !matches_lit.
  destruct (strip_ci "youtube.com" s) as [[|a s']|];
    destruct (strip_ci "youtu.be" s) as [[|a' s'']|]; simpl; try done;
    repeat match goal with |- context [Ascii.eqb ?x ?y] => destruct (Ascii.eqb x y) end;
    done.
Qed.

(** A match that succeeds hands a suffix of the input to its continuation. *)
Lemma matches_suffix r : forall b s k,
  matches r b s k = true ->
  exists b' pre s', s = String.append pre s' /\ k b' s' = true.
Proof.
  induction r as [c| |r1 IH1 r2 IH2|r1 IH1 r2 IH2|r1 IH1]; intros b s k H; simpl in H.
  - destruct s as [|a s]; [done|]. destruct (Ascii.eqb _ _); [|done].
    by exists false, (String a EmptyString), s.
  - destruct b; [|done]. by exists true, EmptyString, s.
  - destruct (IH1 _ _ _ H) as (b1 & pre1 & s1 & -> & H1).
    destruct (IH2 _ _ _ H1) as (b2 & pre2 & s2 & -> & H2).
    exists b2, (String.append pre1 pre2), s2. split; [|done].
    clear. induction pre1 as [|x pre1 IH]; [done|]. simpl. by rewrite IH.
  - apply orb_true_iff in H as [H|H]; [by apply IH1 in H|by apply IH2 in H].
  - apply orb_true_iff in H as [H|H]; [by apply IH1 in H|].
    by exists b, EmptyString, s.
Qed.

Lemma append_assoc a b c :
  String.append (String.append a b) c = String.append a (String.append b c).
Proof. induction a as [|x a IH]; [done|]. simpl. by rewrite IH. Qed.

(** The pattern, one optional group at a time. *)
Lemma pattern_unfold b s :
  matches youtube_pattern b s (fun _ _ => true)
  = (matches (Seq Bol (Seq (lit "h" "ttp") (Seq (Opt (Chr "s")) (lit ":" "//")))) b s
       (fun b1 s1 =>
          matches (lit "w" "ww.") b1 s1
            (fun b2 s2 =>
               matches (Seq (Alt (lit "y" "outube.com") (lit "y" "outu.be")) (Chr "/"))
                 b2 s2 (fun _ _ => true))
          || matches (Seq (Alt (lit "y" "outube.com") (lit "y" "outu.be")) (Chr "/"))
               b1 s1 (fun _ _ => true))
     || (matches (lit "w" "ww.") b s
           (fun b2 s2 =>
              matches (Seq (Alt (lit "y" "outube.com") (lit "y" "outu.be")) (Chr "/"))
                b2 s2 (fun _ _ => true))
         || matches (Seq (Alt (lit "y" "outube.com") (lit "y" "outu.be")) (Chr "/"))
              b s (fun _ _ => true))).
Proof. reflexivity. Qed.

Lemma www_then_host b s :
  (matches (lit "w" "ww.") b s
     (fun b2 s2 =>
        matches (Seq (Alt (lit "y" "outube.com") (lit "y" "outu.be")) (Chr "/"))
          b2 s2 (fun _ _ => true))
   || matches (Seq (Alt (lit "y" "outube.com") (lit "y" "outu.be")) (Chr "/"))
        b s (fun _ _ => true)) = true ->
  exists pre s', s = String.append pre s' /\ host_here s' = true.
Proof.
  intros H. apply orb_true_iff in H as [H|H].
  - apply matches_suffix in H as (b2 & pre & s2 & -> & H2).
    rewrite matches_host in H2. by exists pre, s2.
  - rewrite matches_host in H. by exists EmptyString, s.
Qed.

Lemma pattern_here b s :
  matches youtube_pattern b s (fun _ _ => true) = true ->
  exists pre s', s = String.append pre s' /\ host_here s' = true.
Proof.
  rewrite pattern_unfold. intros H. apply orb_true_iff in H as [H|H].
  - apply matches_suffix in H as (b1 & pre1 & s1 & -> & H1).
    apply www_then_host in H1 as (pre2 & s2 & -> & H2).
    exists (String.append pre1 pre2), s2. split; [|done]. by rewrite append_assoc.
  - by apply www_then_host in H.
Qed.

Lemma host_matches_pattern b s :
  host_here s = true -> matches youtube_pattern b s (fun _ _ => true) = true.
Proof.
  intros H. rewrite pattern_unfold, matches_host, H. by rewrite !orb_true_r.
Qed.

Lemma test_from_host s : forall b,
  test_from youtube_pattern b s = true
  <-> exists pre s', s = String.append pre s' /\ host_here s' = true.
Proof.
  induction s as [|a s IH]; intros b.
  - change (test_from youtube_pattern b EmptyString)
      with (matches youtube_pattern b EmptyString (fun _ _ => true) || false).
    rewrite orb_false_r. split; [apply (pattern_here b)|].
    intros (pre & s' & Hs & H). destruct pre; [|done]. simpl in Hs. subst s'.
    by apply host_matches_pattern.
  - change (test_from youtube_pattern b (String a s))
      with (matches youtube_pattern b (String a s) (fun _ _ => true)
            || test_from youtube_pattern false s).
    rewrite orb_true_iff, IH. split.
    + intros [H|(pre & s' & -> & H)]; [by apply (pattern_here b)|].
      by exists (String a pre), s'.
    + intros (pre & s' & Hs & H). destruct pre as [|x pre]; simpl in Hs.
      * left. subst s'. by apply host_matches_pattern.
      * right. injection Hs as -> ->. by exists pre, s'.
Qed.

Lemma contains_ci_iff p s :
  contains_ci p s = true
  <-> exists pre s', s = String.append pre s' /\ prefix_ci p s' = true.
Proof.
  induction s as [|a s IH]; simpl; split.
  - rewrite orb_false_r. intros H. by exists EmptyString, EmptyString.
  - intros (pre & s' & Hs & H). rewrite orb_false_r.
    destruct pre; [|done]. simpl in Hs. by subst s'.
  - intros H. apply orb_true_iff in H as [H|H].
    + by exists EmptyString, (String a s).
    + apply IH in H as (pre & s' & -> & H). by exists (String a pre), s'.
  - intros (pre & s' & Hs & H). apply orb_true_iff.
    destruct pre as [|x pre]; simpl in Hs.
    + left. by subst s'.
    + right. injection Hs as -> ->. apply IH. by exists pre, s'.
Qed.

(** X12.  [isYoutubeUrl] accepts exactly the strings that contain
    "youtube.com/" or "youtu.be/" somewhere, upper or lower case: the scheme
    and the "www." of the pattern are optional and its [^] sits inside the
    optional group, so neither anchors the match. *)
Theorem isYoutubeUrl_iff_contains_host (url : string) :
  isYoutubeUrl url = contains_ci "youtube.com/" url || contains_ci "youtu.be/" url.
Proof.
  apply eq_true_iff_eq. unfold isYoutubeUrl, test.
  rewrite test_from_host, orb_true_iff, !contains_ci_iff. unfold host_here. split.
  - intros (pre & s' & -> & H). apply orb_true_iff in H as [H|H];
      [left|right]; by exists pre, s'.
  - intros [(pre & s' & -> & H)|(pre & s' & -> & H)]; exists pre, s';
      (split; [done|]); by rewrite H, ?orb_true_r.
Qed.

Section DialogProps.

Variable notebookId : string.
Variable zod_url : string -> bool.
Variable invalidYoutubeUrl : string.

Lemma dialog_inv_step d e :
  (Forall (fun m => isYoutubeUrl (fst m) = true /\ zod_url (fst m) = true
                    /\ snd m = notebookId) (mutations d)
   /\ submitting d = (awaiting d =? 1)%nat /\ (awaiting d <= 1)%nat) ->
  Forall (fun m => isYoutubeUrl (fst m) = true /\ zod_url (fst m) = true
                   /\ snd m = notebookId) (mutations (dialog_step notebookId zod_url invalidYoutubeUrl d e))
  /\ submitting (dialog_step notebookId zod_url invalidYoutubeUrl d e) = (awaiting (dialog_step notebookId zod_url invalidYoutubeUrl d e) =? 1)%nat
  /\ (awaiting (dialog_step notebookId zod_url invalidYoutubeUrl d e) <= 1)%nat.
Proof.
  intros (Hm & Hs & Ha). destruct e as [v|p| | | |v]; simpl; try done.
  - destruct (submitting d || p) eqn:Eg; [done|].
    apply orb_false_iff in Eg as [Es _]. unfold handleSubmit.
    destruct (zod_url (url_value d)) eqn:Ez; [|done].
    unfold onSubmit. destruct (isYoutubeUrl (url_value d)) eqn:Ey; simpl; [|done].
    rewrite Es in Hs. symmetry in Hs. apply Nat.eqb_neq in Hs.
    assert (H0 : awaiting d = 0%nat) by lia. rewrite H0. split_and!; try done.
    apply Forall_app. split; [done|]. by apply Forall_singleton.
  - destruct (awaiting d) as [|n] eqn:Ea; [by rewrite Ea|]. simpl. rewrite Ea.
    assert (n = 0)%nat as -> by lia. split_and!; try done. simpl. lia.
  - destruct (awaiting d) as [|n] eqn:Ea; [by rewrite Ea|]. simpl. rewrite Ea.
    assert (n = 0)%nat as -> by lia. split_and!; try done. simpl. lia.
Qed.

(** X13.  The dialog never creates a source from a URL it has not checked:
    whatever the user does, every call of [createYoutube.mutateAsync] carries
    a URL that passed the schema and [isYoutubeUrl] - so one that contains
    "youtube.com/" or "youtu.be/" - together with the dialog's notebook; and
    the dialog awaits at most one such call at a time, [submitting] being set
    exactly while it does. *)
Theorem dialog_only_creates_checked_urls (es : list DialogEvent) :
  let d := dialog_run notebookId zod_url invalidYoutubeUrl initial es in
  Forall (fun m => isYoutubeUrl (fst m) = true /\ zod_url (fst m) = true
                   /\ snd m = notebookId
                   /\ (contains_ci "youtube.com/" (fst m)
                       || contains_ci "youtu.be/" (fst m)) = true)
    (mutations d)
  /\ submitting d = (awaiting d =? 1)%nat
  /\ (awaiting d <= 1)%nat.
Proof.
  simpl.
  assert (H : Forall (fun m => isYoutubeUrl (fst m) = true /\ zod_url (fst m) = true
                               /\ snd m = notebookId) (mutations (dialog_run notebookId zod_url invalidYoutubeUrl initial es))
              /\ submitting (dialog_run notebookId zod_url invalidYoutubeUrl initial es) = (awaiting (dialog_run notebookId zod_url invalidYoutubeUrl initial es) =? 1)%nat
              /\ (awaiting (dialog_run notebookId zod_url invalidYoutubeUrl initial es) <= 1)%nat).
  { induction es as [|e es' IH] using rev_ind.
    - split_and!; [by apply Forall_nil|done|simpl; lia].
    - unfold dialog_run in *. rewrite fold_left_app. simpl.
      by apply dialog_inv_step. }
  destruct H as (Hm & Hs & Ha). split_and!; try done.
  eapply Forall_impl; [exact Hm|]. intros [u nb] (Hy & Hz & Hn). simpl in *.
  split_and!; try done.
  unfold isYoutubeUrl, test in Hy.
  apply test_from_host in Hy as (pre & s' & -> & Hh). unfold host_here in Hh.
  apply orb_true_iff. apply orb_true_iff in Hh as [Hh|Hh]; [left|right];
    apply contains_ci_iff; by exists pre, s'.
Qed.

(** X14.  [onOpenChange] is called by a successful creation and by the
    Cancel button, both with [false], and by the [Dialog] primitive with
    what it asks for (a dismissal); no other event calls it.  Only typing
    and the reset after a successful creation change the URL field: a
    submission that a validation rejects, one that starts the creation, one
    whose creation fails, Cancel and a dismissal leave the field as typed.
    A failed creation shows no toast of the dialog and clears
    [submitting]. *)
Theorem dialog_closes_only_when_created_cancelled_or_dismissed d e :
  openChanges (dialog_step notebookId zod_url invalidYoutubeUrl d e)
  = openChanges d ++ (match open_change e d with Some v => [v] | None => [] end)
  /\ (forall v, open_change e d = Some v ->
        e = Dismiss v
        \/ (v = false /\ (e = Cancel \/ (e = Resolved /\ awaiting d <> 0%nat))))
  /\ url_value (dialog_step notebookId zod_url invalidYoutubeUrl d e)
     = match e with
       | Type_ v => v
       | Resolved => match awaiting d with O => url_value d | S _ => EmptyString end
       | _ => url_value d
       end
  /\ (e = Rejected -> awaiting d <> 0%nat ->
      toasts (dialog_step notebookId zod_url invalidYoutubeUrl d e) = toasts d
      /\ submitting (dialog_step notebookId zod_url invalidYoutubeUrl d e) = false).
Proof.
  destruct e as [v|p| | | |v]; simpl; split_and!; try done;
    try (by rewrite app_nil_r); try (by destruct (awaiting d); rewrite ?app_nil_r).
  - destruct (submitting d || p); [by rewrite app_nil_r|]. unfold handleSubmit, onSubmit.
    destruct (zod_url (url_value d)); [|by rewrite app_nil_r].
    destruct (isYoutubeUrl (url_value d)); simpl; by rewrite app_nil_r.
  - destruct (submitting d || p); [done|]. unfold handleSubmit, onSubmit.
    destruct (zod_url (url_value d)); [|done]. by destruct (isYoutubeUrl (url_value d)).
  - intros v. destruct (awaiting d); [done|]. intros [= <-]. right. by auto.
  - intros v [= <-]. right. by auto.
  - intros v0 [= <-]. by left.
Qed.

End DialogProps.

End YoutubeProps.

(** ** The market summary column *)

Module MarketProps.
Import Market PageMore.

Section PickProps.

Variable getTime : string -> option Z.

Lemma insert_In x l y : In y (insert getTime x l) <-> y = x \/ In y l.
Proof.
  induction l as [|z l IH]; simpl.
  - split; [intros [<-|[]]; by left|intros [->|[]]; by left].
  - destruct (compare getTime x z <=? 0); simpl.
    + split; [intros [<-|H]; [by left|by right]|intros [->|H]; [by left|by right]].
    + rewrite IH. split.
      * intros [<-|[->|H]]; [right; by left|by left|right; by right].
      * intros [->|[<-|H]]; [right; by left|by left|right; by right].
Qed.

Lemma sort_In l y : In y (sort getTime l) <-> In y l.
Proof.
  induction l as [|x l IH]; [done|]. simpl. rewrite insert_In, IH.
  split; intros [H|H]; (by left) || (by right).
Qed.

Lemma sort_nil l : sort getTime l = [] -> l = [].
Proof.
  destruct l as [|x l]; [done|]. simpl.
  destruct (sort getTime l) as [|y r]; [done|]. simpl.
  by destruct (compare getTime x y <=? 0).
Qed.

Lemma pool_In notes n :
  In n (pool notes) -> In n notes /\ is_candidate n = true.
Proof.
  unfold pool. destruct (List.filter has_content (List.filter is_candidate notes))
    as [|x r] eqn:E.
  - intros H. by apply List.filter_In in H.
  - rewrite <- E. intros H. apply List.filter_In in H as [H _].
    by apply List.filter_In in H.
Qed.

Lemma pool_nil notes : pool notes = [] -> List.filter is_candidate notes = [].
Proof.
  unfold pool. by destruct (List.filter has_content (List.filter is_candidate notes)).
Qed.

(** X15.  [pickMarketSummary] returns a note only from the list it is given
    and only one that looks like a market summary - "shopee summary" in the
    title or "market size gmv" in the content, in any case - and it returns
    none exactly when the list is missing or holds no such note. *)
Theorem pick_is_a_candidate (notes : option (list NoteResponse)) :
  (forall n, pickMarketSummary getTime notes = Some n ->
     exists l, notes = Some l /\ In n l /\ is_candidate n = true)
  /\ (pickMarketSummary getTime notes = None <->
      match notes with
      | None => True
      | Some l => forall n, In n l -> is_candidate n = false
      end).
Proof.
  destruct notes as [l|]; [|split; [done|done]].
  split.
  - intros n H. exists l. split; [done|]. unfold pickMarketSummary in H.
    destruct l as [|x l]; [done|].
    destruct (List.filter is_candidate (x :: l)); [done|].
    apply pool_In, (sort_In _ n). by apply head_Some_elem_of, list_elem_of_In in H.
  - unfold pickMarketSummary. destruct l as [|x l]; [done|].
    destruct (List.filter is_candidate (x :: l)) as [|c cs] eqn:E.
    + split; [|done]. intros _ n Hn.
      destruct (is_candidate n) eqn:En; [|done].
      assert (In n (List.filter is_candidate (x :: l))) by by apply List.filter_In.
      by rewrite E in *.
    + split.
      * intros H. apply head_None, sort_nil, pool_nil in H. congruence.
      * intros H. assert (In c (List.filter is_candidate (x :: l))) as Hc
          by (rewrite E; by left).
        apply List.filter_In in Hc as [Hc1 Hc2]. by rewrite (H c Hc1) in Hc2.
Qed.

(** X16.  A note with content is preferred: when some note that looks like
    a market summary has content other than white space, the note picked has
    such content; when none has, a note without content is picked. *)
Theorem pick_prefers_content (l : list NoteResponse) n :
  pickMarketSummary getTime (Some l) = Some n ->
  has_content n = true
  <-> exists m, In m l /\ is_candidate m = true /\ has_content m = true.
Proof.
  intros H. unfold pickMarketSummary in H.
  destruct l as [|x l]; [done|].
  destruct (List.filter is_candidate (x :: l)) as [|c cs] eqn:E; [done|].
  apply head_Some_elem_of, list_elem_of_In in H.
  apply (proj1 (sort_In _ _)) in H.
  unfold pool in H. rewrite E in H.
  destruct (List.filter has_content (c :: cs)) as [|y r] eqn:E2.
  - rewrite <- E in H. split.
    + intros Hn. assert (In n (List.filter has_content (List.filter is_candidate (x :: l))))
        by (apply List.filter_In; by split).
      rewrite E, E2 in *. done.
    + intros (m & Hm & Hc & Hh).
      assert (In m (List.filter has_content (List.filter is_candidate (x :: l)))).
      { apply List.filter_In. split; [|done]. by apply List.filter_In. }
      rewrite E, E2 in *. done.
  - rewrite <- E2 in H. apply List.filter_In in H as [H1 H2]. split; [|done].
    intros _. exists n. rewrite <- E in H1. apply List.filter_In in H1 as [H3 H4].
    done.
Qed.

Lemma compare_valid a b ta tb :
  getTime (updated a) = Some ta -> getTime (updated b) = Some tb ->
  compare getTime a b = tb - ta.
Proof. unfold compare. by intros -> ->. Qed.

Lemma head_sort_newest l : forall n,
  Forall (fun m => is_Some (getTime (updated m))) l ->
  head (sort getTime l) = Some n ->
  exists l1 l2, l = l1 ++ n :: l2
    /\ Forall (fun m => time_of getTime m < time_of getTime n) l1
    /\ Forall (fun m => time_of getTime m <= time_of getTime n) l2.
Proof.
  induction l as [|x l IH]; intros n Hv H; [done|].
  apply Forall_cons in Hv as [[tx Hx] Hv]. simpl in H.
  destruct (sort getTime l) as [|y r] eqn:E.
  - apply sort_nil in E. subst l. simpl in H. injection H as <-.
    exists [], []. by split_and!.
  - destruct (IH y Hv eq_refl) as (l1 & l2 & -> & H1 & H2).
    assert (Hy : is_Some (getTime (updated y))).
    { rewrite Forall_app, Forall_cons in Hv. by destruct Hv as (_ & Hy & _). }
    destruct Hy as [ty Hy].
    simpl in H. rewrite (compare_valid x y tx ty Hx Hy) in H.
    assert (Htx : time_of getTime x = tx) by (unfold time_of; by rewrite Hx).
    assert (Hty : time_of getTime y = ty) by (unfold time_of; by rewrite Hy).
    destruct (ty - tx <=? 0) eqn:Ec; simpl in H; injection H as <-.
    + apply Z.leb_le in Ec. exists [], (l1 ++ y :: l2). split_and!; try done.
      apply Forall_app. split.
      * eapply Forall_impl; [exact H1|]. simpl. intros m Hm. lia.
      * apply Forall_cons. split; [lia|].
        eapply Forall_impl; [exact H2|]. simpl. intros m Hm. lia.
    + apply Z.leb_gt in Ec. exists (x :: l1), l2. split_and!; try done.
      apply Forall_cons. split; [lia|done].
Qed.

(** X17.  Among the notes it chooses from - the summaries with content, or
    all of them when none has content - [pickMarketSummary] returns the most
    recently updated, and of several updated at that same time the one that
    comes first in the list, provided the dates of the notes parse. *)
Theorem pick_is_the_newest (l : list NoteResponse) n :
  Forall (fun m => is_Some (getTime (updated m))) l ->
  pickMarketSummary getTime (Some l) = Some n ->
  exists l1 l2, pool l = l1 ++ n :: l2
    /\ Forall (fun m => time_of getTime m < time_of getTime n) l1
    /\ Forall (fun m => time_of getTime m <= time_of getTime n) l2.
Proof.
  intros Hv H. unfold pickMarketSummary in H.
  destruct l as [|x l]; [done|].
  destruct (List.filter is_candidate (x :: l)) as [|c cs] eqn:E; [done|].
  apply head_sort_newest; [|done].
  apply List.Forall_forall. intros m Hm. apply pool_In in Hm as [Hm _].
  by apply (proj1 (List.Forall_forall _ _) Hv).
Qed.

End PickProps.

(** *** The content of the note *)

Lemma concat_cons sep x y l :
  String.concat sep (x :: y :: l)
  = String.append x (String.append sep (String.concat sep (y :: l))).
Proof. done. Qed.

Lemma split_lines_go_cons s : forall cur,
  exists x r, split_lines_go cur s = x :: r.
Proof.
  induction s as [|c s IH]; intros cur; simpl; [by eexists _, _|].
  destruct (Ascii.eqb c LF); [by eexists _, _|].
  destruct (Ascii.eqb c CR); [|apply IH].
  destruct s as [|c2 s]; [by eexists _, _|].
  destruct (Ascii.eqb c2 LF); [by eexists _, _|]. apply IH.
Qed.

Lemma append_empty_r s : String.append s EmptyString = s.
Proof. induction s as [|c s IH]; [done|]. simpl. by rewrite IH. Qed.

Lemma append_snoc cur c s :
  String.append (String.append cur (String c EmptyString)) s
  = String.append cur (String c s).
Proof. induction cur as [|x cur IH]; [done|]. simpl. by rewrite IH. Qed.

(** Without carriage returns, joining the lines gives the content back. *)
Lemma join_split_lines_go s : forall cur,
  has_char CR s = false ->
  join_lines (split_lines_go cur s) = String.append cur s.
Proof.
  induction s as [|c s IH]; intros cur Hcr.
  - simpl. by rewrite append_empty_r.
  - simpl in Hcr. apply orb_false_iff in Hcr as [Hc Hcr]. simpl.
    destruct (Ascii.eqb c LF) eqn:El.
    + apply Ascii.eqb_eq in El. subst c.
      destruct (split_lines_go_cons s EmptyString) as (x & r & E).
      unfold join_lines in *. rewrite E, concat_cons, <- E, (IH EmptyString Hcr).
      done.
    + rewrite Hc. rewrite (IH _ Hcr). apply append_snoc.
Qed.

Lemma first_non_empty_spec lines :
  match first_non_empty lines with
  | Some (line, after) =>
      exists blanks, lines = blanks ++ line :: after
        /\ Forall (fun b => all_white b = true) blanks /\ all_white line = false
  | None => Forall (fun b => all_white b = true) lines
  end.
Proof.
  induction lines as [|x lines IH]; simpl; [done|].
  rewrite PageMoreProps.truthy_trim. destruct (all_white x) eqn:E; simpl.
  - destruct (first_non_empty lines) as [[line after]|].
    + destruct IH as (blanks & -> & Hb & Hl). exists (x :: blanks).
      split_and!; try done. by apply Forall_cons.
    + by apply Forall_cons.
  - exists []. by split_and!.
Qed.

(** X18.  What the column shows of a note's content.  If every line is
    blank there is no heading and the content is shown as it is (nothing
    when it is empty).  Otherwise the lines are some blank lines, a first
    line that is not blank - the heading - and the lines after it, which
    joined by line feeds are the body (no body when that is empty): only
    leading blank lines are left out.  For a content without carriage
    returns the lines joined by line feeds are the content itself. *)
Theorem content_view_drops_leading_blank_lines (raw : string) :
  match first_non_empty (split_lines raw) with
  | None =>
      Forall (fun b => all_white b = true) (split_lines raw)
      /\ heading (content_view raw) = None
      /\ body (content_view raw) = (if JS.truthy raw then Some raw else None)
  | Some (line, after) =>
      (exists blanks, split_lines raw = blanks ++ line :: after
         /\ Forall (fun b => all_white b = true) blanks)
      /\ all_white line = false
      /\ heading (content_view raw) = Some line
      /\ body (content_view raw)
         = (if JS.truthy (join_lines after) then Some (join_lines after) else None)
  end
  /\ (has_char CR raw = false -> join_lines (split_lines raw) = raw).
Proof.
  split; [|by apply (join_split_lines_go raw EmptyString)].
  pose proof (first_non_empty_spec (split_lines raw)) as H.
  unfold content_view.
  destruct (first_non_empty (split_lines raw)) as [[line after]|].
  - destruct H as (blanks & Hs & Hb & Hl).
    assert (Ht : JS.truthy line = true) by (destruct line; done).
    rewrite Ht. simpl. split_and!; try done; [by exists blanks|].
    rewrite andb_false_r. by destruct (JS.truthy (join_lines after)).
  - simpl. split_and!; try done. by rewrite andb_true_r.
Qed.

End MarketProps.

(** ** How the operations of the columns store compose *)

Module ColumnsMoreProps.
Import NotebookColumns.

(** X19.  The operations of the notebook-columns store compose as writes to
    three independent cells: operations on different columns commute, of two
    writes to one column the last one wins, and a toggle is the write of the
    negated flag. *)
Theorem columns_ops_compose (st : NotebookColumnsState) (a b : bool) :
  (setSources a (setNotes b st) = setNotes b (setSources a st)
   /\ setSources a (setMarket b st) = setMarket b (setSources a st)
   /\ setNotes a (setMarket b st) = setMarket b (setNotes a st))
  /\ (toggleSources (toggleNotes st) = toggleNotes (toggleSources st)
      /\ toggleSources (toggleMarket st) = toggleMarket (toggleSources st)
      /\ toggleNotes (toggleMarket st) = toggleMarket (toggleNotes st)
      /\ toggleSources (setMarket b st) = setMarket b (toggleSources st)
      /\ toggleNotes (setMarket b st) = setMarket b (toggleNotes st)
      /\ toggleMarket (setSources b st) = setSources b (toggleMarket st)
      /\ toggleMarket (setNotes b st) = setNotes b (toggleMarket st)
      /\ toggleSources (setNotes b st) = setNotes b (toggleSources st)
      /\ toggleNotes (setSources b st) = setSources b (toggleNotes st))
  /\ (setSources a (setSources b st) = setSources a st
      /\ setNotes a (setNotes b st) = setNotes a st
      /\ setMarket a (setMarket b st) = setMarket a st
      /\ setSources a (toggleSources st) = setSources a st
      /\ setNotes a (toggleNotes st) = setNotes a st
      /\ setMarket a (toggleMarket st) = setMarket a st)
  /\ (toggleSources st = setSources (negb (sourcesCollapsed st)) st
      /\ toggleNotes st = setNotes (negb (notesCollapsed st)) st
      /\ toggleMarket st = setMarket (negb (marketCollapsed st)) st
      /\ toggleSources (setSources a st) = setSources (negb a) st
      /\ toggleNotes (setNotes a st) = setNotes (negb a) st
      /\ toggleMarket (setMarket a st) = setMarket (negb a) st).
Proof. by split_and!. Qed.

End ColumnsMoreProps.

(** ** The further properties on sample data *)

Module MoreWitnesses.
Import Page PageMore PageProps PageMoreProps Sample SampleMore.

Lemma submitted_reachable : reachable en submitted.
Proof. exists 0, [Edit (Category "shoes"); Click]. by_eval. Qed.

(** A click on the form with the category "   ". *)
Lemma blank_category_is_rejected_witness :
  all_white (category (page form_blank)) = true
  /\ step en form_blank Click = toast (toast_error (common_required en)) form_blank.
Proof.
  split; [by_eval|].
  refine (proj1 (blank_category_is_rejected en form_blank _ _) _); by_eval.
Defined.

(** The submission of "shoes" fails with a network error. *)
Lemma failed_submission_starts_no_polling_witness :
  mounted submitted = true
  /\ sessions (step en submitted (RunRejected (ErrorObject "Network Error"))) = [].
Proof.
  split; [by_eval|].
  refine (eq_trans (proj1 (proj2 (proj2 (proj2 (proj2
    (failed_submission_starts_no_polling en submitted (ErrorObject "Network Error")
       _ _ _)))))) _).
  - apply submitted_reachable.
  - by_eval.
  - vm_compute. repeat constructor.
  - by_eval.
Defined.

(** The submission of "shoes" resolves with the run identifier "r1", and
    React re-renders. *)
Lemma resolved_submission_starts_the_only_session_witness :
  effectDep submitted <> Some "r1"%string
  /\ calls (step en (step en submitted (RunResolved (Api.mkRunStart "r1"))) Render)
     = calls submitted ++ [(0, Api.osukaApi_status "r1")].
Proof.
  split; [done|].
  refine (proj1 (proj2 (proj2 (proj2
    (resolved_submission_starts_the_only_session en submitted (Api.mkRunStart "r1")
       _ _ _ _ _))))).
  - apply submitted_reachable.
  - by_eval.
  - vm_compute. repeat constructor.
  - by_eval.
  - done.
Defined.

(** After the run "r1" a second run, "r2", was polled by session 1, and its
    status request has just failed: [runId] is cleared, and until React
    re-renders session 1 is still live and polls "r2"; session 0 is not. *)
Lemma at_most_one_live_session_witness :
  (is_cancelled 1 second_run_failed = false
   /\ is_cancelled 0 second_run_failed = true
   /\ runId (page second_run_failed) = None)
  /\ exists s, sessions second_run_failed !! 1%nat = Some s
               /\ effectDep second_run_failed = Some (s_runId s)
               /\ JS.truthy (s_runId s) = true /\ is_Some (interval s)
               /\ (settled second_run_failed ->
                   runId (page second_run_failed) = Some (s_runId s)).
Proof.
  split; [by vm_compute|].
  refine (proj1 (proj2 (proj2 (proj2
    (at_most_one_live_session en second_run_failed 1%nat 1%nat _ _ _))))).
  - exists 0, [Edit (Category "shoes"); Click; RunResolved (Api.mkRunStart "r1"); Render;
               StatusResolved 0%nat st_completed; Render; Click;
               RunResolved (Api.mkRunStart "r2"); Render;
               StatusRejected 1%nat (ErrorObject "Network Error")].
    by_eval.
  - by_eval.
  - by_eval.
Defined.

Lemma submissions_never_overlap_witness :
  (pending_runs (inflight submitted) <= 1)%nat.
Proof.
  refine (proj1 (submissions_never_overlap en submitted _)).
  apply submitted_reachable.
Defined.

(** The component unmounts while "r1" is polled; the answer, a tick and a
    click follow. *)
Lemma unmounted_component_is_inert_witness :
  calls (run en (step en polling_r1 Unmount)
           [StatusResolved 0 st_completed; Tick 0; Click])
  = calls polling_r1.
Proof.
  refine (proj1 (proj2
    (unmounted_component_is_inert en polling_r1
       [StatusResolved 0%nat st_completed; Tick 0%nat; Click] _))).
  apply polling_r1_reachable.
Defined.

(** The backend reports the failure "no products found". *)
Lemma terminal_status_stores_one_outcome_witness :
  terminal st_failed = true
  /\ runState (page (step en polling_r1 (StatusResolved 0 st_failed)))
     = mkRunState None (Some "no products found"%string)
  /\ stopped (step en (step en polling_r1 (StatusResolved 0 st_failed)) Render).
Proof.
  split; [by_eval|].
  pose (H := terminal_status_stores_one_outcome en polling_r1 0%nat st_failed).
  refine ((fun H' => conj (proj1 (proj2 H') _)
                          (proj2 (proj2 (proj2 (proj2 (proj2 (proj2 (proj2 (proj2 H'))))))))) 
            (H _ _ _ _)).
  - by_eval.
  - apply polling_r1_reachable.
  - by_eval.
  - vm_compute. repeat constructor.
  - by_eval.
Defined.

(** A second submission while "r1" is polled. *)
Lemma submission_keeps_the_old_session_witness :
  loading (page polling_r1) = false
  /\ is_cancelled 0 (step en polling_r1 Click) = false.
Proof.
  split; [by_eval|].
  refine (proj1 (proj2 (proj2 (proj2 (proj2
    (submission_keeps_the_old_session en polling_r1 0%nat st_running _ _ _ _ _)))))).
  - apply polling_r1_reachable.
  - by_eval.
  - vm_compute. repeat constructor.
  - by_eval.
  - by_eval.
Defined.

(** The backend answers the submission with an empty run identifier. *)
Lemma empty_run_id_starts_no_polling_witness :
  calls (step en (step en submitted (RunResolved (Api.mkRunStart ""))) Render)
  = calls submitted.
Proof.
  refine (proj1 (proj2 (proj2 (proj2
    (empty_run_id_starts_no_polling en submitted (Api.mkRunStart "") _ _ _ _))))).
  - apply submitted_reachable.
  - by_eval.
  - vm_compute. repeat constructor.
  - done.
Defined.

(** The first status request fails with an [Error] without message. *)
Lemma error_card_after_failed_poll_witness :
  common_error en <> EmptyString
  /\ error_card (page (step en polling_r1 (StatusRejected 0 (ErrorObject ""))))
     = None.
Proof.
  split; [done|].
  refine (proj1 (proj2
    (error_card_after_failed_poll en polling_r1 0%nat st_failed (ErrorObject "")
       _ _ _ _ _))).
  - apply polling_r1_reachable.
  - by_eval.
  - vm_compute. repeat constructor.
  - done.
  - done.
Defined.

(** " -25px", " 25px" and " +25px". *)
Lemma max_total_of_numeral_witness :
  max_total_of " -25px" = JS.Fin 10
  /\ max_total_of " 25px" = JS.Fin 25
  /\ max_total_of " +25px" = JS.Fin 25.
Proof.
  assert (H := max_total_of_numeral " " [2; 5] "px").
  destruct H as (H1 & _ & H2 & _); try by_eval.
  - done.
  - repeat constructor; unfold JS.is_digit; simpl; lia.
  - split; [exact H1|]. apply H2. vm_compute. by split.
Defined.

(** The creation of the source fails. *)
Lemma dialog_closes_only_when_created_cancelled_or_dismissed_witness :
  Youtube.awaiting dialog_submitted <> 0%nat
  /\ Youtube.submitting
       (Youtube.dialog_step "nb1" (fun _ => true) "Not a YouTube URL"
          dialog_submitted Youtube.Rejected) = false.
Proof.
  split; [done|].
  refine (proj2 (proj2 (proj2 (proj2
    (YoutubeProps.dialog_closes_only_when_created_cancelled_or_dismissed
       "nb1" (fun _ => true) "Not a YouTube URL" dialog_submitted Youtube.Rejected)))
    _ _)).
  - done.
  - done.
Defined.

(** Four notes: one that is no summary, an old summary, a newer summary
    without content and a new summary. *)
Lemma pick_is_a_candidate_witness :
  Market.pickMarketSummary sample_getTime (Some some_notes) = Some note_new
  /\ exists l, Some some_notes = Some l /\ In note_new l
               /\ Market.is_candidate note_new = true.
Proof.
  split; [by_eval|].
  refine (proj1 (MarketProps.pick_is_a_candidate sample_getTime (Some some_notes))
            note_new _).
  by_eval.
Defined.

Lemma pick_prefers_content_witness :
  Market.has_content note_empty = false /\ Market.has_content note_new = true.
Proof.
  split; [by_eval|].
  refine (proj2 (MarketProps.pick_prefers_content sample_getTime some_notes note_new _) _).
  - by_eval.
  - exists note_old. split_and!; [|by_eval|by_eval].
    right. by left.
Defined.

Lemma pick_is_the_newest_witness :
  exists l1 l2, Market.pool some_notes = l1 ++ note_new :: l2
    /\ Forall (fun m => Market.time_of sample_getTime m
                        < Market.time_of sample_getTime note_new) l1
    /\ Forall (fun m => Market.time_of sample_getTime m
                        <= Market.time_of sample_getTime note_new) l2.
Proof.
  refine (MarketProps.pick_is_the_newest sample_getTime some_notes note_new _ _).
  - repeat constructor; vm_compute; by eexists.
  - by_eval.
Defined.

Lemma content_view_drops_leading_blank_lines_witness :
  PageMore.has_char Market.CR sample_content = false
  /\ Market.join_lines (Market.split_lines sample_content) = sample_content.
Proof.
  split; [by_eval|].
  refine (proj2 (MarketProps.content_view_drops_leading_blank_lines sample_content) _).
  by_eval.
Defined.

End MoreWitnesses.
